(** * Pulser: [pulser/simresults.py]

    A shallow embedding of [SimulationResults] (the post-processing of a
    simulated pulse sequence) and the properties of its two methods,
    [expect] and [sample_final_state].

    Conventions of the embedding

    - Python [int] values that count things ([dim], [size], positions in an
      array) are [nat]; [N_samples] and the sampled counts are [Z].
    - Amplitudes are complex numbers with rational parts, probabilities are
      rationals: arithmetic is exact, sums are compared with [Qeq].
    - A raised exception is a value of [exn]; a method returns a [result].
    - [numpy] and [qutip] are external: the array operations the code uses
      are written out below ([reshape], [getitem], [np_sum], [binary_repr]);
      the random draw [np.random.multinomial] and [qutip.expect] on one
      state are variables of a section. *)

From Stdlib Require Import List String Ascii Bool Arith ZArith QArith Lia.
From Stdlib Require Import Setoid Morphisms Sorting.Sorted Sorting.Permutation.
Import ListNotations.

Local Close Scope Q_scope.
Local Open Scope string_scope.
Local Open Scope list_scope.
Local Open Scope nat_scope.

Set Implicit Arguments.

(** ** Exceptions and results *)

Inductive exn : Type :=
| ValueError (msg : string)
| TypeError (msg : string)
| IndexError (msg : string)
| UnboundLocalError (msg : string)
| NotImplementedError (msg : string).

Inductive result (A : Type) : Type :=
| Ok (a : A)
| Raise (e : exn).

Arguments Ok {A} a.
Arguments Raise {A} e.

Definition bind {A B : Type} (r : result A) (k : A -> result B) : result B :=
  match r with
  | Ok a => k a
  | Raise e => Raise e
  end.

Notation "x <- r ;; k" := (bind r (fun x => k))
  (at level 61, r at next level, right associativity).

(** ** Numbers *)

Record complex : Type := Cplx { re : Q; im : Q }.

(** [np.abs(z)**2] *)
Definition abs2 (z : complex) : Q := (re z * re z + im z * im z)%Q.

Definition Qsum (l : list Q) : Q := fold_right Qplus 0%Q l.

Definition Zsum (l : list Z) : Z := fold_right Z.add 0%Z l.

(** ** Quantum objects and the results record *)

(** A [qutip.Qobj]: block structure [dims], matrix [shape], entries in
    row-major order. A ket of length [n] has shape [[n; 1]]. *)
Record Qobj : Type := mkQobj {
  dims : list nat * list nat;
  shape : list nat;
  data : list complex
}.

(** An observable handed to [expect]: a raw [np.ndarray] or a [qutip.Qobj];
    both carry a [shape]. *)
Inductive observable : Type :=
| ObsArray (shp : list nat) (entries : list complex)
| ObsQobj (q : Qobj).

Definition obs_shape (o : observable) : list nat :=
  match o with
  | ObsArray shp _ => shp
  | ObsQobj q => shape q
  end.

Definition obs_data (o : observable) : list complex :=
  match o with
  | ObsArray _ entries => entries
  | ObsQobj q => data q
  end.

(** The value passed as [obs_list]; Python does not fix its type. An
    [np.ndarray] with at least one axis is [PyNdarray], with its items along
    the first axis; an [np.ndarray] without axes, such as [np.array(5)], is
    [PyNdarray0d]. *)
Inductive pyarg : Type :=
| PyList (l : list observable)
| PyNdarray (l : list observable)
| PyTuple (l : list observable)
| PyInt (z : Z)
| PyNone
| PyNdarray0d.

(** Fields of [SimulationResults], as stored by [__init__]. *)
Record SimulationResults : Type := mkResults {
  states : list Qobj;
  dim : nat;
  size : nat;
  basis_name : string;
  meas_basis : option string
}.

(** ** numpy *)

(** [np.abs(q)**2]: the squared magnitudes of the entries of [q], in C order.
    The array has the shape of [q]. *)
Definition np_abs_sq (q : Qobj) : list Q := map abs2 (data q).

(** Number of entries of one row (one item along the first axis) of the
    array of [q]: the product of the extents after the first. *)
Definition row_length (q : Qobj) : nat := fold_right Nat.mul 1 (tl (shape q)).

(** An n-dimensional array: extents and entries in C order. *)
Record ndarray : Type := mkArr { nd_shape : list nat; nd_data : list Q }.

Definition prod_shape (shp : list nat) : nat := fold_right Nat.mul 1 shp.

(** [a.reshape(shp)] *)
Definition reshape (a : list Q) (shp : list nat) : result ndarray :=
  if List.length a =? prod_shape shp then Ok (mkArr shp a)
  else Raise (ValueError "cannot reshape array").

(** One entry of an index tuple: an integer or [slice(start, stop)]. *)
Inductive index : Type :=
| Int (n : nat)
| Slice (start stop : nat).

(** The [i]-th block of [s] consecutive entries. *)
Definition chunk (i s : nat) (a : list Q) : list Q := firstn s (skipn (i * s) a).

(** Positions selected by [slice(start, stop)] on an axis of extent [d]. *)
Definition slice_range (start stop d : nat) : list nat :=
  seq (Nat.min start d) (Nat.min stop d - Nat.min start d).

Fixpoint concat_results (l : list (result (list Q))) : result (list Q) :=
  match l with
  | [] => Ok []
  | r :: l' => x <- r ;; xs <- concat_results l' ;; Ok (x ++ xs)
  end.

(** Entries of [a[tuple(ind)]] (basic indexing), in C order. *)
Fixpoint getitem_data (ind : list index) (shp : list nat) (a : list Q)
  : result (list Q) :=
  match ind with
  | [] => Ok a
  | i :: ind' =>
      match shp with
      | [] => Raise (IndexError "too many indices for array")
      | d :: shp' =>
          let s := prod_shape shp' in
          match i with
          | Int n =>
              if n <? d then getitem_data ind' shp' (chunk n s a)
              else Raise (IndexError "index out of bounds")
          | Slice start stop =>
              concat_results
                (map (fun n => getitem_data ind' shp' (chunk n s a))
                     (slice_range start stop d))
          end
      end
  end.

Definition getitem (arr : ndarray) (ind : list index) : result (list Q) :=
  getitem_data ind (nd_shape arr) (nd_data arr).

(** The rows of an array in C order whose rows hold [c] entries each. *)
Fixpoint split_rows (fuel c : nat) (a : list Q) : list (list Q) :=
  match fuel, a with
  | S fuel', _ :: _ => firstn c a :: split_rows fuel' c (skipn c a)
  | _, _ => []
  end.

(** [a[::-1]] for an array with rows of [c] entries: the rows in reverse
    order, each row as it is. An array whose rows are empty has no entry. *)
Definition reverse_rows (c : nat) (a : list Q) : list Q :=
  if c =? 0 then a else List.concat (rev (split_rows (List.length a) c a)).

(** [np.sum] of the selected entries. *)
Definition np_sum (a : list Q) : Q := Qsum a.

(** Binary digits of a positive number, most significant first: [bin(p)[2:]]. *)
Fixpoint bin_digits (p : positive) : list ascii :=
  match p with
  | xH => ["1"%char]
  | xO q => bin_digits q ++ ["0"%char]
  | xI q => bin_digits q ++ ["1"%char]
  end.

(** [str.zfill] *)
Definition zfill (width : nat) (l : list ascii) : list ascii :=
  repeat "0"%char (width - List.length l) ++ l.

(** [np.binary_repr(num, width)] for [num >= 0], as a list of characters. *)
Definition binary_repr_chars (num width : nat) : list ascii :=
  match N.of_nat num with
  | N0 => repeat "0"%char (if width =? 0 then 1 else width)
  | Npos p =>
      let binary := bin_digits p in
      zfill (Nat.max (List.length binary) width) binary
  end.

Definition binary_repr (num width : nat) : string :=
  string_of_list_ascii (binary_repr_chars num width).

(** [np.nonzero(dist)[0]] *)
Definition nonzero (dist : list Z) : list nat :=
  filter (fun i => negb (Z.eqb (nth i dist 0%Z) 0)) (seq 0 (List.length dist)).

(** ** Python dictionaries: insertion-ordered, one entry per key *)

Definition dict : Type := list (string * Z).

Fixpoint dict_set (d : dict) (k : string) (v : Z) : dict :=
  match d with
  | [] => [(k, v)]
  | (k', v') :: d' =>
      if String.eqb k' k then (k', v) :: d' else (k', v') :: dict_set d' k v
  end.

(** [{k: v for (k, v) in items}] *)
Definition dict_of (items : list (string * Z)) : dict :=
  fold_left (fun d kv => dict_set d (fst kv) (snd kv)) items [].

Definition keys (d : dict) : list string := map fst d.
Definition values (d : dict) : list Z := map snd d.

(** ['0' * n] *)
Definition zeros (n : nat) : string := string_of_list_ascii (repeat "0"%char n).

Fixpoint shape_eqb (s1 s2 : list nat) : bool :=
  match s1, s2 with
  | [], [] => true
  | a :: s1', b :: s2' => (a =? b) && shape_eqb s1' s2'
  | _, _ => false
  end.

(** [l[0]] and [l[-1]] on a Python list *)
Definition first_item (l : list Qobj) : result Qobj :=
  match l with
  | [] => Raise (IndexError "list index out of range")
  | q :: _ => Ok q
  end.

Fixpoint last_item (l : list Qobj) : result Qobj :=
  match l with
  | [] => Raise (IndexError "list index out of range")
  | [q] => Ok q
  | _ :: l' => last_item l'
  end.

(** ** The methods of [SimulationResults] *)

Definition msg_obs_list : string := "`obs_list` must be a list of operators".
Definition msg_iteration : string := "iteration over a 0-d array".
Definition msg_shape : string := "Incompatible shape of observable".
Definition msg_undefined_basis : string :=
  "Can't accept an undefined measurement basis because the original sequence has no measurement.".
Definition msg_invalid_basis : string :=
  "'meas_basis' can only be 'ground-rydberg' or 'digital'.".
Definition msg_dimension : string :=
  "Cannot sample system with single-atom state vectors of dimension > 3.".

Section Methods.

(** [qutip.expect(oper, state)] for one state *)
Variable qutip_expect_one : Qobj -> Qobj -> complex.

(** [np.random.multinomial(n, pvals)]: one draw, or the error it raises *)
Variable multinomial : Z -> list Q -> result (list Z).

(** [qutip.expect(oper, states)] for a list of states *)
Definition qutip_expect (oper : Qobj) (sts : list Qobj) : list complex :=
  map (qutip_expect_one oper) sts.

(** The [for obs in obs_list] loop of [expect]; [qobj_list] accumulates. *)
Fixpoint expect_loop (self : SimulationResults) (obs_list : list observable)
         (qobj_list : list Qobj) : result (list Qobj) :=
  match obs_list with
  | [] => Ok qobj_list
  | obs :: rest =>
      if negb (shape_eqb (obs_shape obs)
                         [dim self ^ size self; dim self ^ size self])
      then Raise (ValueError msg_shape)
      else
        s0 <- first_item (states self) ;;
        let dim_list := (fst (dims s0), fst (dims s0)) in
        expect_loop self rest
          (qobj_list ++ [mkQobj dim_list (obs_shape obs) (obs_data obs)])
  end.

Definition expect (self : SimulationResults) (obs_list : pyarg)
  : result (list (list complex)) :=
  match obs_list with
  | PyList l | PyNdarray l =>
      qobj_list <- expect_loop self l [] ;;
      Ok (map (fun qobj => qutip_expect qobj (states self)) qobj_list)
  | PyNdarray0d => Raise (TypeError msg_iteration)
  | PyTuple _ | PyInt _ | PyNone => Raise (TypeError msg_obs_list)
  end.

(** Lines 88-99 of [sample_final_state]: the measurement basis in use. *)
Definition resolve_basis (self : SimulationResults) (mb : option string)
  : result string :=
  b <- match mb with
       | Some b => Ok b
       | None =>
           match meas_basis self with
           | None => Raise (ValueError msg_undefined_basis)
           | Some b => Ok b
           end
       end ;;
  if negb (String.eqb b "ground-rydberg" || String.eqb b "digital")
  then Raise (ValueError msg_invalid_basis)
  else Ok b.

Definition index_of_char (one_state : nat) (ex_one : index) (v : ascii)
  : index :=
  if Ascii.eqb v "0" then ex_one else Int one_state.

(** The body of [for dec_val in range(2**N)] for one [dec_val]. *)
Definition dim3_weight (probs : ndarray) (one_state : nat) (ex_one : index)
           (N dec_val : nat) : result Q :=
  let ind := map (index_of_char one_state ex_one)
                 (list_ascii_of_string (binary_repr dec_val N)) in
  sel <- getitem probs ind ;;
  Ok (np_sum sel).

Fixpoint dim3_loop (probs : ndarray) (one_state : nat) (ex_one : index)
         (N : nat) (dec_vals : list nat) (weights : list Q)
  : result (list Q) :=
  match dec_vals with
  | [] => Ok weights
  | dec_val :: rest =>
      w <- dim3_weight probs one_state ex_one N dec_val ;;
      dim3_loop probs one_state ex_one N rest (weights ++ [w])
  end.

(** Lines 140-141: the draw and the returned dictionary. *)
Definition draw_counts (N : nat) (N_samples : Z) (weights : list Q)
  : result dict :=
  dist <- multinomial N_samples weights ;;
  Ok (dict_of (map (fun i => (binary_repr i N, nth i dist 0%Z))
                   (nonzero dist))).

(** Lines 113-134: the weight table for [dim = 3]. *)
Definition dim3_weights (N : nat) (mb : string) (probs : list Q)
  : result (list Q) :=
  sel <- (if String.eqb mb "ground-rydberg" then Ok (0, Slice 1 3)
          else if String.eqb mb "digital" then Ok (2, Slice 0 2)
          else Raise (UnboundLocalError "one_state")) ;;
  tensor <- reshape probs (repeat 3 N) ;;
  dim3_loop tensor (fst sel) (snd sel) N (seq 0 (2 ^ N)) [].

(** Lines 101-139: either the early [return] of the [dim = 2] branch or the
    weight table that reaches the draw. *)
Definition weights_stage (self : SimulationResults) (mb : string)
           (N_samples : Z) : result (dict + list Q) :=
  let N := size self in
  final <- last_item (states self) ;;
  let probs := np_abs_sq final in
  if dim self =? 2 then
    if String.eqb mb (basis_name self) then
      let weights := if String.eqb mb "digital" then probs
                     else reverse_rows (row_length final) probs in
      Ok (inr weights)
    else Ok (inl [(zeros N, N_samples)])
  else if dim self =? 3 then
    weights <- dim3_weights N mb probs ;;
    Ok (inr weights)
  else Raise (NotImplementedError msg_dimension).

Definition sample_final_state (self : SimulationResults)
           (mb : option string) (N_samples : Z) : result dict :=
  b <- resolve_basis self mb ;;
  r <- weights_stage self b N_samples ;;
  match r with
  | inl returned => Ok returned
  | inr weights => draw_counts (size self) N_samples weights
  end.

End Methods.

(** ** A concrete draw

    One admissible outcome of [np.random.multinomial]: every sample falls on
    the first outcome of positive probability (on the last outcome when there
    is none). It serves to run the methods on concrete inputs. *)

Definition Qpositive (q : Q) : bool := negb (Qle_bool q 0).

Fixpoint first_positive (p : list Q) : nat :=
  match p with
  | [] => 0
  | q :: p' =>
      if Qpositive q then 0
      else match p' with [] => 0 | _ => S (first_positive p') end
  end.

Definition place (n : Z) (i len : nat) : list Z :=
  map (fun j => if j =? i then n else 0%Z) (seq 0 len).

Definition draw_first (n : Z) (p : list Q) : result (list Z) :=
  if (n <? 0)%Z then Raise (ValueError "n < 0")
  else match p with
       | [] => Raise (ValueError "pvals must have at least 1 dimension")
       | _ => Ok (place n (first_positive p) (List.length p))
       end.

(** [qutip.expect] on one ket: the inner product of the state with the
    operator applied to it. *)
Definition Cadd (x y : complex) : complex := Cplx (re x + re y) (im x + im y).
Definition Cmul (x y : complex) : complex :=
  Cplx (re x * re y - im x * im y) (re x * im y + im x * re y).
Definition Cconj (x : complex) : complex := Cplx (re x) (- im x).
Definition Czero : complex := Cplx 0 0.
Definition Csum (l : list complex) : complex := fold_right Cadd Czero l.

Definition ket_expect (oper state : Qobj) : complex :=
  let n := List.length (data state) in
  Csum (map (fun i =>
         Cmul (Cconj (nth i (data state) Czero))
              (Csum (map (fun j =>
                     Cmul (nth (i * n + j) (data oper) Czero)
                          (nth j (data state) Czero))
                   (seq 0 n))))
       (seq 0 n)).

Definition ket (amplitudes : list Q) (ds : list nat) : Qobj :=
  mkQobj (ds, repeat 1 (List.length ds)) [List.length amplitudes; 1]
         (map (fun a => Cplx a 0) amplitudes).

(** ** Vocabulary of the statements *)

(** The measurement basis a call resolves to, if any. *)
Definition resolved (self : SimulationResults) (mb : option string)
  : option string :=
  match mb with
  | Some b => Some b
  | None => meas_basis self
  end.

Definition valid_basis (b : string) : Prop :=
  b = "ground-rydberg" \/ b = "digital".

(** No basis can be resolved, or the resolved one is not recognised. *)
Definition bad_basis (self : SimulationResults) (mb : option string) : Prop :=
  (mb = None /\ meas_basis self = None)
  \/ (exists b, resolved self mb = Some b /\ ~ valid_basis b).

(** The record with another addressing basis. *)
Definition with_basis_name (self : SimulationResults) (bn : string)
  : SimulationResults :=
  mkResults (states self) (dim self) (size self) bn (meas_basis self).

(** Array-like sequences: what [np.asarray] turns into an array of items. *)
Definition array_like (arg : pyarg) : bool :=
  match arg with
  | PyList _ | PyNdarray _ | PyTuple _ => true
  | PyInt _ | PyNone | PyNdarray0d => false
  end.

(** What the [isinstance] guard of [expect] lets through: a list or an
    [np.ndarray], of any number of axes. *)
Definition passes_guard (arg : pyarg) : bool :=
  match arg with
  | PyList _ | PyNdarray _ | PyNdarray0d => true
  | PyTuple _ | PyInt _ | PyNone => false
  end.

(** A list, or an [np.ndarray] with at least one axis: what the guard lets
    through and the loop of [expect] can iterate over. *)
Definition list_or_ndarray (arg : pyarg) : bool :=
  match arg with
  | PyList _ | PyNdarray _ => true
  | PyTuple _ | PyInt _ | PyNone | PyNdarray0d => false
  end.

Definition items (arg : pyarg) : list observable :=
  match arg with
  | PyList l | PyNdarray l | PyTuple l => l
  | _ => []
  end.

(** The operator [expect] builds from an observable: [qutip.Qobj(obs, dims)]. *)
Definition wrap (s0 : Qobj) (obs : observable) : Qobj :=
  mkQobj (fst (dims s0), fst (dims s0)) (obs_shape obs) (obs_data obs).

(** The shape [expect] asks of every observable. *)
Definition expected_shape (self : SimulationResults) : list nat :=
  [dim self ^ size self; dim self ^ size self].

(** Sample inputs: one atom with two levels, in the state [|1>]; a 2x2
    observable and one of the wrong shape. *)
Definition one_atom : SimulationResults :=
  mkResults [ket [1; 0]%Q [2]; ket [0; 1]%Q [2]] 2 1 "digital" (Some "digital").

Definition sigma_z : observable :=
  ObsArray [2; 2] [Cplx 1 0; Cplx 0 0; Cplx 0 0; Cplx (-1) 0].

Definition row_vector : observable := ObsArray [1; 2] [Cplx 1 0; Cplx 0 0].

(** The binary expansion of [k] on [N] digits, most significant first:
    [true] stands for the digit 1. *)
Fixpoint expansion (N k : nat) : list bool :=
  match N with
  | 0 => []
  | S n => Nat.testbit k n :: expansion n k
  end.

Definition char_of_bit (b : bool) : ascii := if b then "1"%char else "0"%char.

(** A string of the characters '0' and '1'. *)
Definition bitstring (s : string) : Prop :=
  Forall (fun c => c = "0"%char \/ c = "1"%char) (list_ascii_of_string s).

(** Positions of the three levels of an atom in its local basis: the state
    vector is ordered with [r] first, then [g], then [h]. *)
Definition rydberg_level : nat := 0.
Definition ground_level : nat := 1.
Definition hyperfine_level : nat := 2.

(** The level read as 1 in a measurement basis. *)
Definition logical_one (b : string) : nat :=
  if String.eqb b "ground-rydberg" then rydberg_level else hyperfine_level.

(** All index tuples of an [N]-axis tensor of extent 3, in C order. *)
Fixpoint tuples (N : nat) : list (list nat) :=
  match N with
  | 0 => [[]]
  | S n => flat_map (fun i => map (cons i) (tuples n)) [0; 1; 2]
  end.

(** Position of the entry at index tuple [t] in the flat vector. *)
Fixpoint flat_index (t : list nat) : nat :=
  match t with
  | [] => 0
  | i :: t' => i * 3 ^ List.length t' + flat_index t'
  end.

(** The index tuple [t] has the level [one] on the axes where the digit is 1
    and one of the two other levels on the axes where it is 0. *)
Fixpoint selects (one : nat) (bits : list bool) (t : list nat) : bool :=
  match bits, t with
  | [], [] => true
  | b :: bits', i :: t' =>
      (if b then i =? one else negb (i =? one)) && selects one bits' t'
  | _, _ => false
  end.

(** The weight of the outcome [k] in the words of the specification: the sum
    of the squared magnitudes of the entries that [k] selects. *)
Definition spec_weight (one N k : nat) (final : Qobj) : Q :=
  Qsum (map (fun t => abs2 (nth (flat_index t) (data final) Czero))
            (filter (selects one (expansion N k)) (tuples N))).

(** The entries a list of digits selects from a tensor of extent 3: the block
    [one] of the first axis under the digit 1, the blocks [lo] and [lo + 1]
    under the digit 0. *)
Fixpoint select (one lo : nat) (bits : list bool) (a : list Q) : list Q :=
  match bits with
  | [] => a
  | b :: bits' =>
      let s := 3 ^ List.length bits' in
      if b then select one lo bits' (chunk one s a)
      else select one lo bits' (chunk lo s a)
           ++ select one lo bits' (chunk (S lo) s a)
  end.

(** First of the two blocks read as 0 in a measurement basis: [slice(1, 3)]
    for 'ground-rydberg', [slice(0, 2)] for 'digital'. *)
Definition logical_zero_start (b : string) : nat :=
  if String.eqb b "ground-rydberg" then ground_level else rydberg_level.

(** The pairs (level read as 1, first level read as 0) of the two bases. *)
Definition basis_levels (one lo : nat) : Prop :=
  (one = 0 /\ lo = 1) \/ (one = 2 /\ lo = 0).

(** Sample inputs for the sampling: one three-level atom in the Rydberg
    state; two two-level atoms in the last basis state, addressed in the
    'ground-rydberg' basis; two three-level atoms with the (unnormalised)
    amplitudes 1 to 9; an empty register; an atom with four levels. *)
Definition rydberg_ket : Qobj := ket [1; 0; 0]%Q [3].

Definition rydberg_atom : SimulationResults :=
  mkResults [rydberg_ket] 3 1 "all" None.

Definition two_atoms : SimulationResults :=
  mkResults [ket [0; 0; 0; 1]%Q [2; 2]] 2 2 "ground-rydberg" None.

Definition nine_amplitudes : SimulationResults :=
  mkResults [ket [1; 2; 3; 4; 5; 6; 7; 8; 9]%Q [3; 3]] 3 2 "all" None.

Definition no_atom : SimulationResults :=
  mkResults [ket [1]%Q []] 3 0 "all" None.

Definition four_levels : SimulationResults :=
  mkResults [ket [1; 0; 0; 0]%Q [4]] 4 1 "digital" (Some "digital").

(** What the methods rely on from [np.random.multinomial(n, pvals)]: a draw
    has one count per outcome, the counts are non-negative and add up to [n],
    an outcome of probability zero is never drawn when the probabilities add
    up to one, and the call goes through for a valid distribution. *)
Record multinomial_contract (multinomial : Z -> list Q -> result (list Z))
  : Prop := {
  draw_length : forall n p d,
      multinomial n p = Ok d -> List.length d = List.length p;
  draw_nonneg : forall n p d,
      multinomial n p = Ok d -> Forall (fun c => (0 <= c)%Z) d;
  draw_total : forall n p d,
      multinomial n p = Ok d -> Zsum d = n;
  draw_support : forall n p d,
      multinomial n p = Ok d -> (Qsum p == 1)%Q ->
      forall i, (nth i p 0 == 0)%Q -> nth i d 0%Z = 0%Z;
  draw_defined : forall n p,
      (0 <= n)%Z -> Forall (fun q => (0 <= q)%Q) p -> (Qsum p == 1)%Q ->
      exists d, multinomial n p = Ok d
}.

(** The record with another stored measurement basis. *)
Definition with_meas_basis (self : SimulationResults) (stored : option string)
  : SimulationResults :=
  mkResults (states self) (dim self) (size self) (basis_name self) stored.

(** [d.get(k)]: the count stored under the key [k], if any. *)
Fixpoint dict_get (d : dict) (k : string) : option Z :=
  match d with
  | [] => None
  | (k', v) :: d' => if String.eqb k' k then Some v else dict_get d' k
  end.

(** The digits of an outcome as a key of the returned dictionary. *)
Definition key_of_bits (bits : list bool) : string :=
  string_of_list_ascii (map char_of_bit bits).

(** For the entry number [j] of a tensor of [N] axes of extent 3, axis by
    axis, whether the index on that axis is the level [one]. *)
Fixpoint level_bits (one N j : nat) : list bool :=
  match N with
  | 0 => []
  | S n => (j / 3 ^ n =? one) :: level_bits one n (j mod 3 ^ n)
  end.

(** The number whose binary digits, most significant first, are [bits]. *)
Fixpoint bits_value (bits : list bool) : nat :=
  match bits with
  | [] => 0
  | b :: bits' => (if b then 2 ^ List.length bits' else 0) + bits_value bits'
  end.

Fixpoint bits_eqb (l1 l2 : list bool) : bool :=
  match l1, l2 with
  | [], [] => true
  | a :: l1', b :: l2' => Bool.eqb a b && bits_eqb l1' l2'
  | _, _ => false
  end.

(** One three-level atom in the ground state. *)
Definition ground_ket : Qobj := ket [0; 1; 0]%Q [3].

Definition ground_atom : SimulationResults :=
  mkResults [ground_ket] 3 1 "all" None.

(** Two two-level atoms whose final state is stored as a row, of shape
    (1, 4), with the same entries as that of [two_atoms]. *)
Definition row_state : Qobj :=
  mkQobj ([1; 1], [2; 2]) [1; 4] (map (fun a => Cplx a 0) [0; 0; 0; 1]%Q).

Definition two_atoms_row : SimulationResults :=
  mkResults [row_state] 2 2 "ground-rydberg" None.

(** * Properties *)

(** ** Basic facts *)

Lemma shape_eqb_eq (s1 s2 : list nat) : shape_eqb s1 s2 = true <-> s1 = s2.
Proof.
  revert s2; induction s1 as [|a s1 IH]; intros [|b s2]; simpl;
    try (split; [discriminate | congruence]); try tauto.
  rewrite andb_true_iff, Nat.eqb_eq, IH.
  split; [intros [-> ->]; reflexivity | intros E; injection E; auto].
Qed.

Lemma last_item_app (sts : list Qobj) (q : Qobj) : last_item (sts ++ [q]) = Ok q.
Proof.
  induction sts as [|a sts IH]; simpl; [reflexivity|].
  destruct (sts ++ [q]) eqn:E; [destruct sts; discriminate | exact IH].
Qed.

Lemma last_item_nonempty (sts : list Qobj) :
  sts <> [] -> exists q, last_item sts = Ok q.
Proof.
  intros H. destruct (exists_last H) as (l & q & ->).
  exists q. apply last_item_app.
Qed.

Lemma valid_basis_eqb (b : string) :
  (String.eqb b "ground-rydberg" || String.eqb b "digital") = true
  <-> valid_basis b.
Proof.
  unfold valid_basis. rewrite orb_true_iff, !String.eqb_eq. tauto.
Qed.

Lemma resolve_basis_ok (self : SimulationResults) (mb : option string) (b : string) :
  resolve_basis self mb = Ok b <-> resolved self mb = Some b /\ valid_basis b.
Proof.
  unfold resolve_basis, resolved.
  destruct mb as [b'|]; [|destruct (meas_basis self) as [b'|]]; simpl;
    try (split; [discriminate | intros [E _]; discriminate]).
  all: destruct (String.eqb b' "ground-rydberg" || String.eqb b' "digital") eqn:E;
    simpl.
  all: split;
    [ intros H;
      first [ discriminate
            | injection H as <-;
              split; [reflexivity | apply valid_basis_eqb; exact E] ]
    | intros [H V]; injection H as <-;
      first [ reflexivity | apply valid_basis_eqb in V; congruence ] ].
Qed.

Lemma resolve_basis_raise (self : SimulationResults) (mb : option string) (e : exn) :
  resolve_basis self mb = Raise e ->
  (mb = None /\ meas_basis self = None /\ e = ValueError msg_undefined_basis)
  \/ (exists b, resolved self mb = Some b /\ ~ valid_basis b
                /\ e = ValueError msg_invalid_basis).
Proof.
  unfold resolve_basis, resolved.
  destruct mb as [b'|]; [|destruct (meas_basis self) as [b'|]]; simpl.
  3: intros H; injection H as <-; left; auto.
  all: destruct (String.eqb b' "ground-rydberg" || String.eqb b' "digital") eqn:E;
    simpl; intros H; [discriminate|]; injection H as <-;
    right; exists b'; repeat split; auto;
    rewrite <- valid_basis_eqb; congruence.
Qed.

(** ** Validation of the measurement basis *)

Lemma bad_basis_raises (self : SimulationResults) (mb : option string) :
  bad_basis self mb <-> exists msg, resolve_basis self mb = Raise (ValueError msg).
Proof.
  split.
  - intros H. destruct (resolve_basis self mb) as [b|e] eqn:E.
    + apply resolve_basis_ok in E. destruct E as [R V].
      destruct H as [[-> Hn] | (b' & R' & NV)].
      * simpl in R. congruence.
      * rewrite R in R'. injection R' as <-. contradiction.
    + apply resolve_basis_raise in E.
      destruct E as [(_ & _ & ->) | (b' & _ & _ & ->)]; eexists; reflexivity.
  - intros [msg E]. apply resolve_basis_raise in E.
    destruct E as [(H1 & H2 & _) | (b' & R & NV & _)].
    + left; auto.
    + right; exists b'; auto.
Qed.

(** C6: a call raises [ValueError] at the validation of the basis, before the
    final state or anything else is looked at, exactly when no basis argument
    is given and no default is stored, or the resolved basis is neither
    'ground-rydberg' nor 'digital'. In these cases the whole call raises that
    error, whatever the states, the dimension and the random draw are; in all
    other cases the validation passes with a recognised basis and the call
    goes on to the weights and the draw. *)
Theorem sample_final_state_basis_errors
        (self : SimulationResults) (mb : option string) :
  (bad_basis self mb
   <-> exists msg, resolve_basis self mb = Raise (ValueError msg))
  /\ (bad_basis self mb ->
      forall multinomial N_samples, exists msg,
        sample_final_state multinomial self mb N_samples
        = Raise (ValueError msg)
        /\ (msg = msg_undefined_basis \/ msg = msg_invalid_basis))
  /\ (~ bad_basis self mb ->
      exists b, resolve_basis self mb = Ok b /\ valid_basis b
                /\ resolved self mb = Some b
                /\ forall multinomial N_samples,
                     sample_final_state multinomial self mb N_samples
                     = (r <- weights_stage self b N_samples ;;
                        match r with
                        | inl returned => Ok returned
                        | inr weights =>
                            draw_counts multinomial (size self) N_samples weights
                        end)).
Proof.
  split; [apply bad_basis_raises|]. split.
  - intros H multinomial N_samples.
    apply bad_basis_raises in H. destruct H as [msg E].
    exists msg. unfold sample_final_state. rewrite E. simpl.
    split; [reflexivity|].
    apply resolve_basis_raise in E.
    destruct E as [(_ & _ & E) | (b' & _ & _ & E)]; injection E; auto.
  - intros H. destruct (resolve_basis self mb) as [b|e] eqn:E.
    + exists b. split; [reflexivity|].
      pose proof (proj1 (resolve_basis_ok self mb b) E) as [R V].
      repeat split; try assumption.
      intros multinomial N_samples. unfold sample_final_state.
      rewrite E. reflexivity.
    + exfalso. apply H. apply bad_basis_raises.
      pose proof (resolve_basis_raise _ _ E) as E'.
      destruct E' as [(_ & _ & E') | (b' & _ & _ & E')];
        rewrite E' in E; eexists; exact E.
Qed.

(** ** Unsupported dimensions *)

(** C9: when [dim] is neither 2 nor 3 a call never returns a mapping, and
    with a recognised basis and a final state to read it raises
    [NotImplementedError]. *)
Theorem sample_final_state_unsupported_dim
        (multinomial : Z -> list Q -> result (list Z))
        (self : SimulationResults) (mb : option string) (N_samples : Z)
        (Hdim2 : dim self <> 2) (Hdim3 : dim self <> 3) :
  (forall d, sample_final_state multinomial self mb N_samples <> Ok d)
  /\ (forall b, resolved self mb = Some b -> valid_basis b ->
      states self <> [] ->
      sample_final_state multinomial self mb N_samples
      = Raise (NotImplementedError msg_dimension)).
Proof.
  apply Nat.eqb_neq in Hdim2, Hdim3.
  unfold sample_final_state, weights_stage. split.
  - intros d. destruct (resolve_basis self mb) as [b|e]; simpl; [|discriminate].
    destruct (last_item (states self)); simpl; [|discriminate].
    rewrite Hdim2, Hdim3. simpl. discriminate.
  - intros b R V Hne.
    assert (E : resolve_basis self mb = Ok b) by (apply resolve_basis_ok; auto).
    rewrite E. simpl.
    destruct (last_item_nonempty Hne) as [q ->]. simpl.
    rewrite Hdim2, Hdim3. reflexivity.
Qed.

(** ** The two-level branch with a mismatched basis *)

(** C3: with [dim = 2] and a recognised measurement basis other than the
    addressing basis, a call returns the single entry ['0'*size: N_samples]
    for every final state, and whatever the random draw would do. *)
Theorem sample_final_state_mismatch
        (multinomial : Z -> list Q -> result (list Z))
        (self : SimulationResults) (mb : option string) (N_samples : Z)
        (b : string) (earlier : list Qobj) (final : Qobj)
        (Hdim : dim self = 2)
        (Hres : resolved self mb = Some b) (Hvalid : valid_basis b)
        (Hdiff : b <> basis_name self)
        (Hstates : states self = earlier ++ [final]) :
  sample_final_state multinomial self mb N_samples
  = Ok [(zeros (size self), N_samples)].
Proof.
  unfold sample_final_state, weights_stage.
  assert (E : resolve_basis self mb = Ok b) by (apply resolve_basis_ok; auto).
  rewrite E, Hstates, last_item_app, Hdim. simpl.
  apply String.eqb_neq in Hdiff. rewrite Hdiff. reflexivity.
Qed.

(** ** The three-level branch ignores the addressing basis *)

(** C10: with [dim = 3], the weight table, and with it the whole call, is the
    same for two records that differ only in [basis_name]. *)
Theorem dim3_independent_of_basis_name
        (multinomial : Z -> list Q -> result (list Z))
        (self : SimulationResults) (bn1 bn2 : string)
        (mb : option string) (b : string) (N_samples : Z)
        (Hdim : dim self = 3) :
  weights_stage (with_basis_name self bn1) b N_samples
  = weights_stage (with_basis_name self bn2) b N_samples
  /\ sample_final_state multinomial (with_basis_name self bn1) mb N_samples
     = sample_final_state multinomial (with_basis_name self bn2) mb N_samples.
Proof.
  assert (W : forall b', weights_stage (with_basis_name self bn1) b' N_samples
                         = weights_stage (with_basis_name self bn2) b' N_samples).
  { intros b'. unfold weights_stage, with_basis_name. simpl.
    rewrite Hdim. reflexivity. }
  split; [apply W|].
  unfold sample_final_state.
  replace (resolve_basis (with_basis_name self bn2) mb)
    with (resolve_basis (with_basis_name self bn1) mb) by reflexivity.
  destruct (resolve_basis (with_basis_name self bn1) mb) as [b'|e]; simpl;
    [rewrite W|]; reflexivity.
Qed.

(** ** [expect] *)

Lemma expect_loop_wraps (self : SimulationResults) (s0 : Qobj)
      (rest : list Qobj) (obs_list : list observable) (acc : list Qobj) :
  states self = s0 :: rest ->
  Forall (fun obs => obs_shape obs = expected_shape self) obs_list ->
  expect_loop self obs_list acc = Ok (acc ++ map (wrap s0) obs_list).
Proof.
  intros Hs. revert acc.
  induction obs_list as [|obs l IH]; intros acc Hall; simpl.
  - rewrite app_nil_r. reflexivity.
  - inversion Hall as [|? ? Hobs Hl]; subst.
    apply shape_eqb_eq in Hobs. unfold expected_shape in Hobs.
    rewrite Hobs, Hs. simpl.
    rewrite IH by assumption. rewrite <- app_assoc. reflexivity.
Qed.

Lemma expect_loop_bad_shape (self : SimulationResults) (s0 : Qobj)
      (rest : list Qobj) (obs_list : list observable) (acc : list Qobj) :
  states self = s0 :: rest ->
  Exists (fun obs => obs_shape obs <> expected_shape self) obs_list ->
  expect_loop self obs_list acc = Raise (ValueError msg_shape).
Proof.
  intros Hs. revert acc.
  induction obs_list as [|obs l IH]; intros acc Hex; simpl.
  - inversion Hex.
  - destruct (shape_eqb (obs_shape obs)
                        [dim self ^ size self; dim self ^ size self]) eqn:E;
      simpl; [|reflexivity].
    apply shape_eqb_eq in E.
    inversion Hex as [? ? Hbad | ? ? Hrest]; subst.
    + exfalso. apply Hbad. exact E.
    + rewrite Hs. simpl. apply IH. exact Hrest.
Qed.

(** C7, as the code has it: [expect] raises [TypeError] exactly when
    [obs_list] is not a list or an array with at least one axis. The guard
    refuses whatever is neither a list nor an array, a tuple of observables
    included, before any observable is looked at; an array without axes
    passes the guard and raises [TypeError] when the loop starts to iterate
    over it. A list or an array of observables raises no [TypeError]. *)
Theorem expect_type_error
        (qutip_expect_one : Qobj -> Qobj -> complex)
        (self : SimulationResults) (obs_list : pyarg) :
  ((exists msg, expect qutip_expect_one self obs_list = Raise (TypeError msg))
   <-> list_or_ndarray obs_list = false)
  /\ (expect qutip_expect_one self obs_list = Raise (TypeError msg_obs_list)
      <-> passes_guard obs_list = false)
  /\ (passes_guard obs_list = true -> list_or_ndarray obs_list = false ->
      expect qutip_expect_one self obs_list = Raise (TypeError msg_iteration)).
Proof.
  assert (L : forall l acc msg,
             expect_loop self l acc <> Raise (TypeError msg)).
  { induction l as [|obs l IH]; intros acc msg; simpl; [discriminate|].
    destruct (negb _); [discriminate|].
    destruct (states self); simpl; [discriminate | apply IH]. }
  assert (N : forall l msg,
             (qobj_list <- expect_loop self l [] ;;
              Ok (map (fun qobj => qutip_expect qutip_expect_one qobj
                                                (states self)) qobj_list))
             <> Raise (TypeError msg)).
  { intros l msg H. destruct (expect_loop self l []) eqn:El; simpl in H;
      [discriminate | apply (L l [] msg); congruence]. }
  split; [split | split; [split|]].
  - intros [msg E]. destruct obs_list; simpl in *; try reflexivity;
      exfalso; apply (N l msg E).
  - intros H. destruct obs_list; simpl in *; try discriminate;
      eexists; reflexivity.
  - intros E. destruct obs_list; simpl in *; try reflexivity;
      try discriminate; exfalso; apply (N l _ E).
  - intros H. destruct obs_list; simpl in *; try discriminate; reflexivity.
  - intros H1 H2. destruct obs_list; simpl in *; try discriminate; reflexivity.
Qed.

(** C7, as the claim has it, fails: a tuple holding one observable of the
    right shape is an array-like sequence, and [expect] raises [TypeError]. *)
Lemma expect_tuple_type_error :
  array_like (PyTuple [sigma_z]) = true
  /\ obs_shape sigma_z = expected_shape one_atom
  /\ expect ket_expect one_atom (PyTuple [sigma_z])
     = Raise (TypeError msg_obs_list).
Proof. repeat split. Qed.

(** C8: for a list or array of observables and a record that holds at least
    one state, [expect] raises [ValueError] as soon as one observable has a
    shape other than [(dim^size, dim^size)], whatever [qutip.expect] would
    compute; when every shape is right it returns, for each observable in
    order, the expectation values of its operator, one per stored state. *)
Theorem expect_shapes
        (qutip_expect_one : Qobj -> Qobj -> complex)
        (self : SimulationResults) (obs_list : pyarg)
        (s0 : Qobj) (rest : list Qobj)
        (Harg : list_or_ndarray obs_list = true)
        (Hstates : states self = s0 :: rest) :
  (Exists (fun obs => obs_shape obs <> expected_shape self) (items obs_list) ->
   expect qutip_expect_one self obs_list = Raise (ValueError msg_shape))
  /\ (Forall (fun obs => obs_shape obs = expected_shape self) (items obs_list) ->
      exists vals,
        expect qutip_expect_one self obs_list = Ok vals
        /\ vals = map (fun obs => map (qutip_expect_one (wrap s0 obs))
                                      (states self))
                      (items obs_list)
        /\ List.length vals = List.length (items obs_list)
        /\ Forall (fun v => List.length v = List.length (states self)) vals).
Proof.
  assert (E : expect qutip_expect_one self obs_list
              = (qobj_list <- expect_loop self (items obs_list) [] ;;
                 Ok (map (fun qobj => qutip_expect qutip_expect_one qobj
                                                   (states self)) qobj_list)))
    by (destruct obs_list; try discriminate; reflexivity).
  rewrite E. split.
  - intros Hex. rewrite (expect_loop_bad_shape _ Hstates Hex). reflexivity.
  - intros Hall. rewrite (expect_loop_wraps _ Hstates Hall). simpl.
    eexists. split; [reflexivity|].
    rewrite map_map. unfold qutip_expect.
    split; [reflexivity|]. split; [apply length_map|].
    apply Forall_forall. intros v Hv. apply in_map_iff in Hv.
    destruct Hv as (obs & <- & _). apply length_map.
Qed.

(** ** [np.binary_repr] *)

Lemma expansion_length (N k : nat) : List.length (expansion N k) = N.
Proof. induction N; simpl; congruence. Qed.

Lemma expansion_zero (N : nat) : expansion N 0 = repeat false N.
Proof.
  induction N as [|n IH]; simpl; [reflexivity|].
  rewrite Nat.bits_0, IH. reflexivity.
Qed.

(** The last digit is the parity, the digits before it expand the half. *)
Lemma expansion_snoc (n k : nat) :
  expansion (S n) k = expansion n (Nat.div2 k) ++ [Nat.odd k].
Proof.
  induction n as [|n IH]; [reflexivity|].
  change (expansion (S (S n)) k) with (Nat.testbit k (S n) :: expansion (S n) k).
  rewrite IH. reflexivity.
Qed.

Lemma bin_digits_length_pos (p : positive) : 1 <= List.length (bin_digits p).
Proof. destruct p; simpl; rewrite ?length_app; simpl; lia. Qed.

Lemma bin_digits_lower (p : positive) :
  2 ^ (List.length (bin_digits p) - 1) <= Pos.to_nat p.
Proof.
  induction p as [q IH|q IH|]; simpl.
  - rewrite length_app, Pos2Nat.inj_xI. simpl.
    pose proof (bin_digits_length_pos q).
    replace (List.length (bin_digits q) + 1 - 1)
      with (S (List.length (bin_digits q) - 1)) by lia.
    rewrite Nat.pow_succ_r'. lia.
  - rewrite length_app, Pos2Nat.inj_xO. simpl.
    pose proof (bin_digits_length_pos q).
    replace (List.length (bin_digits q) + 1 - 1)
      with (S (List.length (bin_digits q) - 1)) by lia.
    rewrite Nat.pow_succ_r'. lia.
  - simpl. lia.
Qed.

Lemma bin_digits_fits (p : positive) (w : nat) :
  Pos.to_nat p < 2 ^ w -> List.length (bin_digits p) <= w.
Proof.
  intros H. pose proof (bin_digits_lower p) as L.
  pose proof (bin_digits_length_pos p).
  destruct (le_lt_dec (List.length (bin_digits p)) w) as [|G]; [assumption|].
  exfalso.
  assert (2 ^ w <= 2 ^ (List.length (bin_digits p) - 1))
    by (apply Nat.pow_le_mono_r; lia).
  lia.
Qed.

Lemma zfill_bin_digits (p : positive) (w : nat) :
  List.length (bin_digits p) <= w ->
  zfill w (bin_digits p) = map char_of_bit (expansion w (Pos.to_nat p)).
Proof.
  revert w. unfold zfill.
  induction p as [q IH|q IH|]; intros w Hw; cbn [bin_digits] in *.
  - rewrite length_app in *. cbn [List.length] in *.
    destruct w as [|w]; [lia|].
    rewrite expansion_snoc, map_app, Pos2Nat.inj_xI.
    rewrite Nat.div2_succ_double, Nat.odd_succ, Nat.even_mul.
    rewrite <- IH by lia. rewrite <- app_assoc.
    replace (S w - (List.length (bin_digits q) + 1))
      with (w - List.length (bin_digits q)) by lia.
    reflexivity.
  - rewrite length_app in *. cbn [List.length] in *.
    destruct w as [|w]; [lia|].
    rewrite expansion_snoc, map_app, Pos2Nat.inj_xO.
    rewrite Nat.div2_double, Nat.odd_mul.
    rewrite <- IH by lia. rewrite <- app_assoc.
    replace (S w - (List.length (bin_digits q) + 1))
      with (w - List.length (bin_digits q)) by lia.
    reflexivity.
  - cbn [List.length] in *. destruct w as [|w]; [lia|].
    rewrite expansion_snoc, map_app.
    change (Nat.div2 (Pos.to_nat 1)) with 0.
    rewrite expansion_zero, map_repeat.
    replace (S w - 1) with w by lia. reflexivity.
Qed.

(** With a width of at least one digit and a number that fits, the result of
    [np.binary_repr] is the expansion, digit by digit. *)
Lemma binary_repr_chars_expansion (n k : nat) :
  k < 2 ^ S n ->
  binary_repr_chars k (S n) = map char_of_bit (expansion (S n) k).
Proof.
  intros H. unfold binary_repr_chars.
  destruct (N.of_nat k) as [|p] eqn:E.
  - assert (k = 0) by lia. subst k.
    rewrite expansion_zero, map_repeat. reflexivity.
  - assert (Hk : Pos.to_nat p = k) by lia.
    pose proof (@bin_digits_fits p (S n)) as F. rewrite Hk in F.
    rewrite Nat.max_r by auto.
    rewrite zfill_bin_digits by auto. rewrite Hk. reflexivity.
Qed.

(** ** Sums of rationals *)

Lemma Qsum_app (l1 l2 : list Q) : (Qsum (l1 ++ l2) == Qsum l1 + Qsum l2)%Q.
Proof.
  induction l1 as [|x l1 IH]; simpl.
  - rewrite Qplus_0_l. reflexivity.
  - rewrite IH. apply Qplus_assoc.
Qed.

Lemma Qsum_map_ext {A : Type} (f g : A -> Q) (l : list A) :
  (forall x, In x l -> (f x == g x)%Q) ->
  (Qsum (map f l) == Qsum (map g l))%Q.
Proof.
  induction l as [|x l IH]; intros H; simpl; [reflexivity|].
  rewrite (H x) by (left; reflexivity).
  rewrite IH by (intros y Hy; apply H; right; exact Hy).
  reflexivity.
Qed.

Lemma Qsum_map_plus {A : Type} (f g : A -> Q) (l : list A) :
  (Qsum (map (fun x => f x + g x) l) == Qsum (map f l) + Qsum (map g l))%Q.
Proof.
  induction l as [|x l IH]; simpl; [reflexivity|].
  rewrite IH. ring.
Qed.

(** ** Blocks of a flat array *)

Lemma chunk_length (i s : nat) (a : list Q) :
  (i + 1) * s <= List.length a -> List.length (chunk i s a) = s.
Proof.
  intros H. unfold chunk. rewrite length_firstn, length_skipn. nia.
Qed.

Lemma chunk_nth (i s j : nat) (a : list Q) (d : Q) :
  j < s -> nth j (chunk i s a) d = nth (i * s + j) a d.
Proof.
  intros H. unfold chunk.
  rewrite nth_firstn. apply Nat.ltb_lt in H. rewrite H.
  rewrite nth_skipn. reflexivity.
Qed.

Lemma chunks_three (s : nat) (a : list Q) :
  List.length a = 3 * s ->
  a = chunk 0 s a ++ chunk 1 s a ++ chunk 2 s a.
Proof.
  intros H. unfold chunk. simpl. rewrite Nat.add_0_r.
  rewrite <- (firstn_skipn s a) at 1. f_equal.
  rewrite <- (firstn_skipn s (skipn s a)) at 1. f_equal.
  rewrite skipn_skipn.
  symmetry. apply firstn_all2. rewrite length_skipn. lia.
Qed.

(** ** Indexing the tensor *)

Lemma prod_shape_repeat (n : nat) : prod_shape (repeat 3 n) = 3 ^ n.
Proof. induction n as [|n IH]; simpl; [reflexivity|]. rewrite IH. lia. Qed.

Lemma getitem_select (one lo : nat) (bits : list bool) (a : list Q) :
  one < 3 -> lo < 2 ->
  getitem_data (map (index_of_char one (Slice lo (lo + 2)))
                    (map char_of_bit bits))
               (repeat 3 (List.length bits)) a
  = Ok (select one lo bits a).
Proof.
  intros Hone Hlo. revert a.
  induction bits as [|b bits IH]; intros a; [reflexivity|].
  cbn [map List.length repeat getitem_data select].
  rewrite prod_shape_repeat.
  destruct b; cbn [char_of_bit index_of_char Ascii.eqb Bool.eqb].
  - simpl Ascii.eqb. cbv iota.
    apply Nat.ltb_lt in Hone. rewrite Hone. apply IH.
  - simpl Ascii.eqb. cbv iota.
    unfold slice_range.
    rewrite (Nat.min_l lo 3), (Nat.min_l (lo + 2) 3) by lia.
    replace (lo + 2 - lo) with 2 by lia.
    cbn [seq map concat_results]. rewrite !IH. simpl.
    rewrite app_nil_r. reflexivity.
Qed.

(** ** The loop over the outcomes *)

Lemma dim3_loop_map (probs : ndarray) (one : nat) (ex : index) (N : nat)
      (f : nat -> Q) (dec_vals : list nat) (acc : list Q) :
  (forall k, In k dec_vals -> dim3_weight probs one ex N k = Ok (f k)) ->
  dim3_loop probs one ex N dec_vals acc = Ok (acc ++ map f dec_vals).
Proof.
  revert acc. induction dec_vals as [|k l IH]; intros acc H; simpl.
  - rewrite app_nil_r. reflexivity.
  - rewrite (H k) by (left; reflexivity). simpl.
    rewrite IH by (intros j Hj; apply H; right; exact Hj).
    rewrite <- app_assoc. reflexivity.
Qed.

Lemma dim3_weight_select (one lo n k : nat) (a : list Q) :
  one < 3 -> lo < 2 -> k < 2 ^ S n ->
  dim3_weight (mkArr (repeat 3 (S n)) a) one (Slice lo (lo + 2)) (S n) k
  = Ok (Qsum (select one lo (expansion (S n) k) a)).
Proof.
  intros Hone Hlo Hk. unfold dim3_weight, binary_repr, getitem.
  rewrite list_ascii_of_string_of_list_ascii.
  rewrite binary_repr_chars_expansion by exact Hk.
  cbn [nd_shape nd_data].
  rewrite <- (expansion_length (S n) k) at 2.
  rewrite getitem_select by assumption. reflexivity.
Qed.

Lemma basis_levels_valid (b : string) :
  valid_basis b -> basis_levels (logical_one b) (logical_zero_start b).
Proof. intros [-> | ->]; [left | right]; split; reflexivity. Qed.

Lemma basis_levels_bounds (one lo : nat) : basis_levels one lo -> one < 3 /\ lo < 2.
Proof. intros [[-> ->] | [-> ->]]; lia. Qed.

(** The weight table of the three-level branch, outcome by outcome. *)
Lemma dim3_weights_select (n : nat) (b : string) (probs : list Q) :
  valid_basis b -> List.length probs = 3 ^ S n ->
  dim3_weights (S n) b probs
  = Ok (map (fun k => Qsum (select (logical_one b) (logical_zero_start b)
                                   (expansion (S n) k) probs))
            (seq 0 (2 ^ S n))).
Proof.
  intros V L. unfold dim3_weights, reshape.
  rewrite prod_shape_repeat, L, Nat.eqb_refl.
  assert (E : (if String.eqb b "ground-rydberg" then Ok (0, Slice 1 3)
               else if String.eqb b "digital" then Ok (2, Slice 0 2)
                    else Raise (UnboundLocalError "one_state"))
              = Ok (logical_one b,
                    Slice (logical_zero_start b) (logical_zero_start b + 2)))
    by (destruct V as [-> | ->]; reflexivity).
  rewrite E. cbn [bind fst snd].
  destruct (basis_levels_bounds (basis_levels_valid V)) as [H1 H2].
  rewrite dim3_loop_map
    with (f := fun k => Qsum (select (logical_one b) (logical_zero_start b)
                                     (expansion (S n) k) probs)).
  - reflexivity.
  - intros k Hk. apply in_seq in Hk.
    apply dim3_weight_select; [assumption | assumption | lia].
Qed.

(** ** Index tuples *)

Lemma tuples_spec (n : nat) (t : list nat) :
  In t (tuples n) -> List.length t = n /\ flat_index t < 3 ^ n.
Proof.
  revert t. induction n as [|n IH]; intros t H.
  - destruct H as [<- | []]. simpl. lia.
  - cbn [tuples flat_map] in H. rewrite app_nil_r in H.
    rewrite !in_app_iff, !in_map_iff in H.
    destruct H as [(t' & <- & H) | [(t' & <- & H) | (t' & <- & H)]];
      destruct (IH _ H) as [L F]; cbn [List.length flat_index];
      rewrite L, Nat.pow_succ_r'; lia.
Qed.

Lemma filter_selects_cons (one : nat) (b : bool) (bits : list bool) (i : nat)
      (T : list (list nat)) :
  filter (selects one (b :: bits)) (map (cons i) T)
  = if (if b then i =? one else negb (i =? one))
    then map (cons i) (filter (selects one bits) T)
    else [].
Proof.
  induction T as [|t T IH]; cbn [map filter].
  - destruct (if b then i =? one else negb (i =? one)); reflexivity.
  - rewrite IH. cbn [selects].
    destruct (if b then i =? one else negb (i =? one)); cbn [andb];
      [destruct (selects one bits t)|]; reflexivity.
Qed.

(** The part of the sum of the specification that runs over the tuples
    starting with [i] is the same sum over the block [i]. *)
Lemma block_sum (one : nat) (bits : list bool) (i n : nat) (a : list Q) :
  Qsum (map (fun t => nth (flat_index t) a 0%Q)
            (map (cons i) (filter (selects one bits) (tuples n))))
  = Qsum (map (fun t => nth (flat_index t) (chunk i (3 ^ n) a) 0%Q)
              (filter (selects one bits) (tuples n))).
Proof.
  rewrite map_map. f_equal. apply map_ext_in.
  intros t Ht. apply filter_In in Ht. destruct Ht as [Ht _].
  destruct (tuples_spec _ _ Ht) as [L F].
  cbn [flat_index]. rewrite L. symmetry. apply chunk_nth. exact F.
Qed.

(** The entries the code selects and sums are those the specification
    names. *)
Lemma select_sum_tuples (one lo : nat) (bits : list bool) (a : list Q) :
  basis_levels one lo ->
  List.length a = 3 ^ List.length bits ->
  (Qsum (select one lo bits a)
   == Qsum (map (fun t => nth (flat_index t) a 0%Q)
                (filter (selects one bits) (tuples (List.length bits)))))%Q.
Proof.
  intros Hlv. revert a.
  induction bits as [|b bits IH]; intros a L.
  - destruct a as [|x [|y a]]; try discriminate. simpl. reflexivity.
  - cbn [List.length] in *. rewrite Nat.pow_succ_r' in L.
    set (n := List.length bits) in *.
    assert (C : forall i, i < 3 ->
              (Qsum (select one lo bits (chunk i (3 ^ n) a))
               == Qsum (map (fun t => nth (flat_index t) (chunk i (3 ^ n) a) 0%Q)
                            (filter (selects one bits) (tuples n))))%Q).
    { intros i Hi. apply IH. apply chunk_length. nia. }
    cbn [tuples flat_map select]. fold n.
    rewrite app_nil_r, !filter_app, !filter_selects_cons.
    destruct Hlv as [[-> ->] | [-> ->]]; destruct b; cbn [Nat.eqb negb];
      rewrite ?app_nil_l, ?app_nil_r, ?map_app, ?Qsum_app, ?block_sum,
              <- ?C by lia;
      reflexivity.
Qed.

(** ** Summing over all outcomes *)

Lemma seq_add (m len : nat) : seq m len = map (Nat.add m) (seq 0 len).
Proof.
  revert m. induction len as [|len IH]; intros m; simpl; [reflexivity|].
  rewrite Nat.add_0_r. f_equal.
  rewrite (IH (S m)), (IH 1), map_map. apply map_ext. intros k. lia.
Qed.

Lemma testbit_small (n k : nat) : k < 2 ^ n -> Nat.testbit k n = false.
Proof.
  intros H. rewrite Nat.testbit_eqb, Nat.div_small by exact H. reflexivity.
Qed.

Lemma expansion_mod (n m k : nat) :
  n <= m -> expansion n (k mod 2 ^ m) = expansion n k.
Proof.
  induction n as [|n IH]; intros H; simpl; [reflexivity|].
  rewrite Nat.mod_pow2_bits_low by lia. rewrite IH by lia. reflexivity.
Qed.

Lemma expansion_low (n k : nat) :
  k < 2 ^ n -> expansion (S n) k = false :: expansion n k.
Proof. intros H. simpl. rewrite testbit_small by exact H. reflexivity. Qed.

Lemma expansion_high (n k : nat) :
  k < 2 ^ n -> expansion (S n) (2 ^ n + k) = true :: expansion n k.
Proof.
  intros H. simpl. f_equal.
  - rewrite Nat.testbit_eqb.
    replace (2 ^ n + k) with (k + 1 * 2 ^ n) by lia.
    rewrite Nat.div_add by lia. rewrite Nat.div_small by exact H. reflexivity.
  - rewrite <- (expansion_mod (m := n)) by lia.
    replace (2 ^ n + k) with (k + 1 * 2 ^ n) by lia.
    rewrite Nat.Div0.mod_add. apply expansion_mod. lia.
Qed.

(** The weights of all outcomes add up to the sum of the whole tensor. *)
Lemma select_total (one lo n : nat) (a : list Q) :
  basis_levels one lo ->
  List.length a = 3 ^ n ->
  (Qsum (map (fun k => Qsum (select one lo (expansion n k) a))
             (seq 0 (2 ^ n)))
   == Qsum a)%Q.
Proof.
  intros Hlv. revert a. induction n as [|n IH]; intros a L.
  - simpl. apply Qplus_0_r.
  - rewrite Nat.pow_succ_r' in L.
    replace (2 ^ S n) with (2 ^ n + 2 ^ n) by (rewrite Nat.pow_succ_r'; lia).
    rewrite seq_app, map_app, Qsum_app. simpl (0 + 2 ^ n).
    rewrite (seq_add (2 ^ n)), map_map.
    rewrite (Qsum_map_ext
               (fun k => Qsum (select one lo (expansion (S n) k) a))
               (fun k => Qsum (select one lo (expansion n k) (chunk lo (3 ^ n) a))
                         + Qsum (select one lo (expansion n k)
                                        (chunk (S lo) (3 ^ n) a)))%Q).
    2:{ intros k Hk. apply in_seq in Hk.
        rewrite expansion_low by lia. cbn [select].
        rewrite expansion_length. apply Qsum_app. }
    rewrite (Qsum_map_ext
               (fun k => Qsum (select one lo (expansion (S n) (2 ^ n + k)) a))
               (fun k => Qsum (select one lo (expansion n k)
                                      (chunk one (3 ^ n) a)))).
    2:{ intros k Hk. apply in_seq in Hk.
        rewrite expansion_high by lia. cbn [select].
        rewrite expansion_length. reflexivity. }
    rewrite Qsum_map_plus.
    destruct (basis_levels_bounds Hlv) as [H1 H2].
    rewrite !IH by (apply chunk_length; nia).
    rewrite (chunks_three (3 ^ n) a L) at 4.
    rewrite !Qsum_app.
    destruct Hlv as [[-> ->] | [-> ->]]; ring.
Qed.

(** ** The weight table of the three-level branch *)

Lemma nth_map_seq {A : Type} (f : nat -> A) (d : A) (m k : nat) :
  k < m -> nth k (map f (seq 0 m)) d = f k.
Proof.
  intros H.
  rewrite (nth_indep _ d (f 0)) by (rewrite length_map, length_seq; exact H).
  rewrite map_nth, seq_nth by exact H. reflexivity.
Qed.

Lemma weights_stage_dim3 (self : SimulationResults) (b : string)
      (earlier : list Qobj) (final : Qobj) (N_samples : Z) (n : nat) :
  dim self = 3 -> valid_basis b ->
  states self = earlier ++ [final] ->
  size self = S n ->
  List.length (data final) = 3 ^ S n ->
  weights_stage self b N_samples
  = Ok (inr (map (fun k => Qsum (select (logical_one b) (logical_zero_start b)
                                        (expansion (S n) k) (np_abs_sq final)))
                 (seq 0 (2 ^ S n)))).
Proof.
  intros Hdim V Hs Hn L. unfold weights_stage.
  rewrite Hs, last_item_app, Hdim, Hn. simpl bind. cbv iota.
  change (3 =? 2) with false. change (3 =? 3) with true. cbv iota.
  rewrite dim3_weights_select; [reflexivity | exact V |].
  unfold np_abs_sq. rewrite length_map. exact L.
Qed.

(** C1: with [dim = 3], a recognised basis and a final state of [3^size]
    amplitudes ([size >= 1]), the call reaches the draw with a table of
    [2^size] weights, and the weight of every [k < 2^size] is the sum of the
    squared magnitudes of the entries whose index tuple has the logical-1
    level of the basis on the axes where the expansion of [k] has a 1 and
    another level where it has a 0. *)
Theorem dim3_weight_is_spec_weight
        (multinomial : Z -> list Q -> result (list Z))
        (self : SimulationResults) (mb : option string) (b : string)
        (earlier : list Qobj) (final : Qobj) (N_samples : Z)
        (Hdim : dim self = 3)
        (Hres : resolved self mb = Some b) (Hvalid : valid_basis b)
        (Hstates : states self = earlier ++ [final])
        (Hlen : List.length (data final) = 3 ^ size self)
        (Hsize : 1 <= size self) :
  exists weights,
    weights_stage self b N_samples = Ok (inr weights)
    /\ sample_final_state multinomial self mb N_samples
       = draw_counts multinomial (size self) N_samples weights
    /\ List.length weights = 2 ^ size self
    /\ forall k, k < 2 ^ size self ->
         (nth k weights 0 == spec_weight (logical_one b) (size self) k final)%Q.
Proof.
  destruct (size self) as [|n] eqn:Hn; [lia|].
  pose proof (@weights_stage_dim3 self b earlier final N_samples n
                                   Hdim Hvalid Hstates Hn Hlen) as W.
  eexists. split; [exact W|]. split; [|split].
  - unfold sample_final_state.
    assert (E : resolve_basis self mb = Ok b) by (apply resolve_basis_ok; auto).
    rewrite E. simpl bind. rewrite W, Hn. reflexivity.
  - rewrite length_map, length_seq. reflexivity.
  - intros k Hk. rewrite nth_map_seq by exact Hk.
    rewrite select_sum_tuples.
    + rewrite expansion_length. unfold spec_weight.
      apply Qsum_map_ext. intros t Ht.
      apply filter_In in Ht. destruct Ht as [Ht _].
      apply tuples_spec in Ht. destruct Ht as [_ F].
      unfold np_abs_sq.
      rewrite (nth_indep _ 0%Q (abs2 Czero)) by (rewrite length_map; lia).
      rewrite map_nth. reflexivity.
    + apply basis_levels_valid. exact Hvalid.
    + rewrite expansion_length. unfold np_abs_sq. rewrite length_map. exact Hlen.
Qed.

Lemma dim3_weight_is_spec_weight_witness :
  exists weights,
    weights_stage rydberg_atom "ground-rydberg" 1000 = Ok (inr weights)
    /\ sample_final_state draw_first rydberg_atom (Some "ground-rydberg") 1000
       = draw_counts draw_first (size rydberg_atom) 1000 weights
    /\ List.length weights = 2 ^ size rydberg_atom
    /\ forall k, k < 2 ^ size rydberg_atom ->
         (nth k weights 0
          == spec_weight (logical_one "ground-rydberg") (size rydberg_atom) k
                         rydberg_ket)%Q.
Proof.
  apply (@dim3_weight_is_spec_weight draw_first rydberg_atom
           (Some "ground-rydberg") "ground-rydberg" [] rydberg_ket 1000).
  - reflexivity.
  - reflexivity.
  - left; reflexivity.
  - reflexivity.
  - reflexivity.
  - simpl; lia.
Defined.

(** C5: with [dim = 3], a recognised basis and a final state of [3^size]
    amplitudes ([size >= 1]), the [2^size] weights add up to the sum of the
    squared magnitudes of all amplitudes, hence to 1 for a normalised
    state. *)
Theorem dim3_weights_total
        (self : SimulationResults) (b : string)
        (earlier : list Qobj) (final : Qobj) (N_samples : Z)
        (Hdim : dim self = 3) (Hvalid : valid_basis b)
        (Hstates : states self = earlier ++ [final])
        (Hlen : List.length (data final) = 3 ^ size self)
        (Hsize : 1 <= size self) :
  exists weights,
    weights_stage self b N_samples = Ok (inr weights)
    /\ List.length weights = 2 ^ size self
    /\ (Qsum weights == Qsum (map abs2 (data final)))%Q
    /\ ((Qsum (map abs2 (data final)) == 1)%Q -> (Qsum weights == 1)%Q).
Proof.
  destruct (size self) as [|n] eqn:Hn; [lia|].
  pose proof (@weights_stage_dim3 self b earlier final N_samples n
                                   Hdim Hvalid Hstates Hn Hlen) as W.
  assert (T : (Qsum (map (fun k => Qsum (select (logical_one b)
                                                (logical_zero_start b)
                                                (expansion (S n) k)
                                                (np_abs_sq final)))
                         (seq 0 (2 ^ S n)))
               == Qsum (map abs2 (data final)))%Q).
  { apply select_total.
    - apply basis_levels_valid. exact Hvalid.
    - unfold np_abs_sq. rewrite length_map. exact Hlen. }
  eexists. split; [exact W|]. split; [|split].
  - rewrite length_map, length_seq. reflexivity.
  - exact T.
  - intros H1. rewrite T. exact H1.
Qed.

Lemma dim3_weights_total_witness :
  exists weights,
    weights_stage rydberg_atom "digital" 1000 = Ok (inr weights)
    /\ List.length weights = 2 ^ size rydberg_atom
    /\ (Qsum weights == Qsum (map abs2 (data rydberg_ket)))%Q
    /\ ((Qsum (map abs2 (data rydberg_ket)) == 1)%Q
        -> (Qsum weights == 1)%Q).
Proof.
  apply (@dim3_weights_total rydberg_atom "digital" [] rydberg_ket 1000).
  - reflexivity.
  - right; reflexivity.
  - reflexivity.
  - reflexivity.
  - simpl; lia.
Defined.

(** ** The concrete draw meets the contract *)

Lemma place_length (n : Z) (i len : nat) : List.length (place n i len) = len.
Proof. unfold place. rewrite length_map, length_seq. reflexivity. Qed.

Lemma place_nth (n : Z) (i len j : nat) :
  nth j (place n i len) 0%Z = if (j <? len) && (j =? i) then n else 0%Z.
Proof.
  unfold place. destruct (j <? len) eqn:E.
  - apply Nat.ltb_lt in E.
    rewrite nth_map_seq by exact E. reflexivity.
  - apply Nat.ltb_ge in E. apply nth_overflow.
    rewrite length_map, length_seq. exact E.
Qed.

Lemma Zsum_place (n : Z) (i start len : nat) :
  Zsum (map (fun j => if j =? i then n else 0%Z) (seq start len))
  = if (start <=? i) && (i <? start + len) then n else 0%Z.
Proof.
  revert start. induction len as [|len IH]; intros start; simpl.
  - destruct (start <=? i) eqn:E1, (i <? start + 0) eqn:E2; simpl; try reflexivity.
    apply Nat.leb_le in E1. apply Nat.ltb_lt in E2. lia.
  - rewrite IH.
    destruct (start =? i) eqn:E0, (S start <=? i) eqn:E1,
             (i <? S start + len) eqn:E2, (start <=? i) eqn:E3,
             (i <? start + S len) eqn:E4; simpl;
      rewrite ?Nat.eqb_eq, ?Nat.eqb_neq, ?Nat.leb_le, ?Nat.leb_gt,
              ?Nat.ltb_lt, ?Nat.ltb_ge in *; lia.
Qed.

Lemma first_positive_bound (p : list Q) :
  p <> [] -> first_positive p < List.length p.
Proof.
  induction p as [|q p IH]; intros H; [congruence|]. simpl.
  destruct (Qpositive q); [lia|].
  destruct p as [|q' p]; [simpl; lia|].
  assert (first_positive (q' :: p) < List.length (q' :: p))
    by (apply IH; discriminate).
  simpl in *. lia.
Qed.

Lemma first_positive_spec (p : list Q) :
  Qpositive (nth (first_positive p) p 0%Q) = true
  \/ Forall (fun q => (q <= 0)%Q) p.
Proof.
  induction p as [|q p IH]; [right; constructor|]. simpl.
  destruct (Qpositive q) eqn:E; [left; exact E|].
  assert (Hq : (q <= 0)%Q).
  { unfold Qpositive in E. apply negb_false_iff in E.
    apply Qle_bool_iff. exact E. }
  destruct p as [|q' p]; [right; repeat constructor; exact Hq|].
  destruct IH as [IH | IH]; [left; exact IH | right; constructor; assumption].
Qed.

Lemma Qsum_nonpos (p : list Q) :
  Forall (fun q => (q <= 0)%Q) p -> (Qsum p <= 0)%Q.
Proof.
  induction 1 as [|q p Hq _ IH]; simpl; [apply Qle_refl|].
  replace 0%Q with (0 + 0)%Q by reflexivity.
  apply Qplus_le_compat; assumption.
Qed.

Lemma draw_first_contract : multinomial_contract draw_first.
Proof.
  assert (Inv : forall n p d, draw_first n p = Ok d ->
                  (0 <= n)%Z /\ p <> []
                  /\ d = place n (first_positive p) (List.length p)).
  { intros n p d. unfold draw_first.
    destruct (n <? 0)%Z eqn:E; [discriminate|].
    apply Z.ltb_ge in E.
    destruct p as [|q p]; [discriminate|].
    intros H. injection H as <-. repeat split; [exact E | discriminate]. }
  constructor.
  - intros n p d H. destruct (Inv _ _ _ H) as (_ & _ & ->). apply place_length.
  - intros n p d H. destruct (Inv _ _ _ H) as (Hn & _ & ->).
    unfold place. apply Forall_forall. intros c Hc.
    apply in_map_iff in Hc. destruct Hc as (j & <- & _).
    destruct (j =? first_positive p); lia.
  - intros n p d H. destruct (Inv _ _ _ H) as (_ & Hp & ->).
    unfold place. rewrite Zsum_place.
    pose proof (first_positive_bound Hp) as B.
    apply Nat.ltb_lt in B. simpl. rewrite B. reflexivity.
  - intros n p d H S1 i Hi. destruct (Inv _ _ _ H) as (_ & Hp & ->).
    rewrite place_nth.
    destruct (i <? List.length p) eqn:E1; [|reflexivity].
    destruct (i =? first_positive p) eqn:E2; [|reflexivity].
    exfalso. apply Nat.eqb_eq in E2. subst i.
    destruct (first_positive_spec p) as [P | P].
    + unfold Qpositive in P. apply negb_true_iff in P.
      assert (Qle_bool (nth (first_positive p) p 0%Q) 0 = true)
        by (apply Qle_bool_iff; rewrite Hi; apply Qle_refl).
      congruence.
    + apply Qsum_nonpos in P. rewrite S1 in P.
      apply Qle_not_lt in P. apply P. reflexivity.
  - intros n p Hn _ S1. unfold draw_first.
    apply Z.ltb_ge in Hn. rewrite Hn.
    destruct p as [|q p]; [discriminate S1|].
    eexists; reflexivity.
Qed.

(** ** A draw from a distribution concentrated on one outcome *)

Lemma Zsum_single (d : list Z) (i0 : nat) :
  (forall i, i <> i0 -> nth i d 0%Z = 0%Z) -> Zsum d = nth i0 d 0%Z.
Proof.
  revert i0. induction d as [|a d IH]; intros i0 H.
  - destruct i0; reflexivity.
  - destruct i0 as [|j]; simpl.
    + rewrite (IH (List.length d)).
      * rewrite nth_overflow by lia. lia.
      * intros i _. apply (H (S i)). discriminate.
    + assert (Ha : a = 0%Z) by (apply (H 0); discriminate). subst a.
      rewrite (IH j); [reflexivity|].
      intros i Hi. apply (H (S i)). congruence.
Qed.

Lemma point_mass_draw (multinomial : Z -> list Q -> result (list Z))
      (n : Z) (p : list Q) (i0 : nat) :
  multinomial_contract multinomial ->
  (0 <= n)%Z -> Forall (fun q => (0 <= q)%Q) p -> (Qsum p == 1)%Q ->
  i0 < List.length p ->
  (forall i, i <> i0 -> (nth i p 0 == 0)%Q) ->
  multinomial n p = Ok (place n i0 (List.length p)).
Proof.
  intros C Hn Hp S1 Hi Hz.
  destruct (draw_defined C Hn Hp S1) as [d E]. rewrite E. f_equal.
  pose proof (draw_length C _ _ E) as L.
  assert (Z0 : forall i, i <> i0 -> nth i d 0%Z = 0%Z)
    by (intros i Hne; apply (draw_support C _ _ E S1); apply Hz; exact Hne).
  apply (nth_ext _ _ 0%Z 0%Z); [rewrite place_length; exact L|].
  intros i Hlt. rewrite place_nth.
  rewrite L in Hlt. apply Nat.ltb_lt in Hlt. rewrite Hlt. simpl.
  destruct (i =? i0) eqn:Ei.
  - apply Nat.eqb_eq in Ei. subst i.
    rewrite <- (Zsum_single d Z0). apply (draw_total C _ _ E).
  - apply Nat.eqb_neq in Ei. apply Z0. exact Ei.
Qed.

(** ** Reversing the rows of an array *)

Lemma split_rows_concat (fuel c : nat) (a : list Q) :
  0 < c -> List.length a <= fuel -> List.concat (split_rows fuel c a) = a.
Proof.
  intros Hc. revert a. induction fuel as [|fuel IH]; intros a Hf.
  - destruct a; [reflexivity | simpl in Hf; lia].
  - destruct a as [|x a]; [reflexivity|].
    cbn [split_rows List.concat]. rewrite IH.
    + apply firstn_skipn.
    + rewrite length_skipn. cbn [List.length] in *. lia.
Qed.

Lemma concat_rev_perm (l : list (list Q)) :
  Permutation (List.concat (rev l)) (List.concat l).
Proof.
  induction l as [|x l IH]; [reflexivity|].
  simpl. rewrite concat_app. simpl. rewrite app_nil_r.
  rewrite Permutation_app_comm. apply Permutation_app_head, IH.
Qed.

(** Reversing the rows moves the entries and keeps them all. *)
Lemma reverse_rows_perm (c : nat) (a : list Q) : Permutation (reverse_rows c a) a.
Proof.
  unfold reverse_rows. destruct (c =? 0) eqn:E; [reflexivity|].
  apply Nat.eqb_neq in E.
  rewrite concat_rev_perm, split_rows_concat by lia. reflexivity.
Qed.

Lemma reverse_rows_length (c : nat) (a : list Q) :
  List.length (reverse_rows c a) = List.length a.
Proof. apply Permutation_length, reverse_rows_perm. Qed.

Lemma reverse_rows_Forall (P : Q -> Prop) (c : nat) (a : list Q) :
  Forall P a -> Forall P (reverse_rows c a).
Proof.
  intros H. eapply Permutation_Forall; [|exact H].
  apply Permutation_sym, reverse_rows_perm.
Qed.

Lemma Qsum_perm (l1 l2 : list Q) :
  Permutation l1 l2 -> (Qsum l1 == Qsum l2)%Q.
Proof.
  induction 1 as [|x l1 l2 _ IH|x y l|l1 l2 l3 _ IH1 _ IH2]; simpl.
  - reflexivity.
  - rewrite IH. reflexivity.
  - ring.
  - rewrite IH1. exact IH2.
Qed.

Lemma Qsum_reverse_rows (c : nat) (a : list Q) :
  (Qsum (reverse_rows c a) == Qsum a)%Q.
Proof. apply Qsum_perm, reverse_rows_perm. Qed.

Lemma split_rows_column (fuel : nat) (a : list Q) :
  List.length a <= fuel -> split_rows fuel 1 a = map (fun x => [x]) a.
Proof.
  revert a. induction fuel as [|fuel IH]; intros a Hf.
  - destruct a; [reflexivity | simpl in Hf; lia].
  - destruct a as [|x a]; [reflexivity|].
    cbn [split_rows firstn skipn map]. rewrite IH by (simpl in Hf; lia).
    reflexivity.
Qed.

(** For a column vector the rows are the entries: the vector is reversed. *)
Lemma reverse_rows_column (a : list Q) : reverse_rows 1 a = rev a.
Proof.
  unfold reverse_rows. simpl (1 =? 0).
  rewrite split_rows_column by lia.
  induction a as [|x a IH]; [reflexivity|].
  simpl. rewrite concat_app, IH. reflexivity.
Qed.

Lemma row_length_column (q : Qobj) (n : nat) :
  shape q = [n; 1] -> row_length q = 1.
Proof. intros H. unfold row_length. rewrite H. reflexivity. Qed.

(** ** The two-level branch with the addressing basis *)

(** C2: with [dim = 2], a recognised measurement basis equal to the
    addressing basis and a final state that is a column vector of [2^size]
    amplitudes, the weight
    table that reaches the draw is made of the squared magnitudes of the
    amplitudes, in the stored order for 'digital' and in the reverse order
    for 'ground-rydberg', where the weight of [k] is that of the amplitude
    [2^size - 1 - k]. For two atoms in the state [[0, 0, 0, 1]] addressed and
    measured in 'ground-rydberg', 500 samples give [{'00': 500}]. *)
Theorem dim2_same_basis_weights
        (multinomial : Z -> list Q -> result (list Z)) :
  (forall (self : SimulationResults) (mb : option string) (b : string)
          (earlier : list Qobj) (final : Qobj) (N_samples : Z),
      dim self = 2 ->
      resolved self mb = Some b -> valid_basis b ->
      b = basis_name self ->
      states self = earlier ++ [final] ->
      shape final = [2 ^ size self; 1] ->
      List.length (data final) = 2 ^ size self ->
      exists weights,
        weights_stage self b N_samples = Ok (inr weights)
        /\ sample_final_state multinomial self mb N_samples
           = draw_counts multinomial (size self) N_samples weights
        /\ List.length weights = 2 ^ size self
        /\ (b = "digital" ->
            weights = map abs2 (data final)
            /\ forall k, k < 2 ^ size self ->
                 nth k weights 0%Q = abs2 (nth k (data final) Czero))
        /\ (b = "ground-rydberg" ->
            weights = rev (map abs2 (data final))
            /\ forall k, k < 2 ^ size self ->
                 nth k weights 0%Q
                 = abs2 (nth (2 ^ size self - 1 - k) (data final) Czero)))
  /\ (multinomial_contract multinomial ->
      sample_final_state multinomial two_atoms (Some "ground-rydberg") 500
      = Ok [("00", 500%Z)]).
Proof.
  split.
  - intros self mb b earlier final N_samples Hdim Hres Hvalid Hsame Hstates
           Hshape Hlen.
    assert (W : weights_stage self b N_samples
                = Ok (inr (if String.eqb b "digital" then np_abs_sq final
                           else rev (np_abs_sq final)))).
    { unfold weights_stage. rewrite Hstates, last_item_app, Hdim.
      simpl bind. cbv iota. change (2 =? 2) with true. cbv iota.
      rewrite <- Hsame, String.eqb_refl.
      rewrite (row_length_column final Hshape), reverse_rows_column.
      reflexivity. }
    eexists. split; [exact W|]. split; [|split; [|split]].
    + unfold sample_final_state.
      assert (E : resolve_basis self mb = Ok b) by (apply resolve_basis_ok; auto).
      rewrite E. simpl bind. rewrite W. reflexivity.
    + unfold np_abs_sq.
      destruct (String.eqb b "digital"); rewrite ?length_rev, length_map;
        exact Hlen.
    + intros ->. simpl. split; [reflexivity|].
      intros k Hk. unfold np_abs_sq.
      rewrite (nth_indep _ 0%Q (abs2 Czero)) by (rewrite length_map; lia).
      apply map_nth.
    + intros ->. simpl. split; [reflexivity|].
      intros k Hk. unfold np_abs_sq.
      rewrite rev_nth by (rewrite length_map; lia).
      rewrite length_map, Hlen.
      rewrite (nth_indep _ 0%Q (abs2 Czero)) by (rewrite length_map; lia).
      rewrite map_nth. do 2 f_equal. lia.
  - intros C. unfold sample_final_state.
    assert (E : resolve_basis two_atoms (Some "ground-rydberg")
                = Ok "ground-rydberg") by reflexivity.
    assert (W : weights_stage two_atoms "ground-rydberg" 500
                = Ok (inr [1; 0; 0; 0]%Q)) by (vm_compute; reflexivity).
    rewrite E. cbn [bind]. rewrite W. cbn [bind]. unfold draw_counts.
    rewrite (@point_mass_draw multinomial 500 [1; 0; 0; 0]%Q 0 C).
    + reflexivity.
    + lia.
    + repeat constructor; discriminate.
    + reflexivity.
    + simpl; lia.
    + intros [|[|[|[|[|i]]]]] Hi; try reflexivity. congruence.
Qed.

Lemma dim2_same_basis_weights_witness :
  (exists weights,
      weights_stage two_atoms "ground-rydberg" 500 = Ok (inr weights)
      /\ sample_final_state draw_first two_atoms (Some "ground-rydberg") 500
         = draw_counts draw_first (size two_atoms) 500 weights
      /\ List.length weights = 2 ^ size two_atoms
      /\ ("ground-rydberg" = "digital" ->
          weights = map abs2 (data (ket [0; 0; 0; 1]%Q [2; 2]%nat))
          /\ forall k, k < 2 ^ size two_atoms ->
               nth k weights 0%Q
               = abs2 (nth k (data (ket [0; 0; 0; 1]%Q [2; 2]%nat)) Czero))
      /\ ("ground-rydberg" = "ground-rydberg" ->
          weights = rev (map abs2 (data (ket [0; 0; 0; 1]%Q [2; 2]%nat)))
          /\ forall k, k < 2 ^ size two_atoms ->
               nth k weights 0%Q
               = abs2 (nth (2 ^ size two_atoms - 1 - k)
                           (data (ket [0; 0; 0; 1]%Q [2; 2]%nat)) Czero)))
  /\ sample_final_state draw_first two_atoms (Some "ground-rydberg") 500
     = Ok [("00", 500%Z)].
Proof.
  split.
  - apply (proj1 (dim2_same_basis_weights draw_first) two_atoms
                 (Some "ground-rydberg") "ground-rydberg" []
                 (ket [0; 0; 0; 1]%Q [2; 2]) 500%Z).
    + reflexivity.
    + reflexivity.
    + left; reflexivity.
    + reflexivity.
    + reflexivity.
    + reflexivity.
    + reflexivity.
  - apply (proj2 (dim2_same_basis_weights draw_first)).
    exact draw_first_contract.
Defined.

(** ** Keys of the returned dictionary *)

Lemma string_of_list_ascii_length (l : list ascii) :
  String.length (string_of_list_ascii l) = List.length l.
Proof. induction l as [|c l IH]; simpl; congruence. Qed.

Lemma binary_repr_expansion (n k : nat) :
  k < 2 ^ S n ->
  list_ascii_of_string (binary_repr k (S n))
  = map char_of_bit (expansion (S n) k).
Proof.
  intros H. unfold binary_repr.
  rewrite list_ascii_of_string_of_list_ascii.
  apply binary_repr_chars_expansion. exact H.
Qed.

Lemma binary_repr_length (n k : nat) :
  k < 2 ^ S n -> String.length (binary_repr k (S n)) = S n.
Proof.
  intros H. unfold binary_repr.
  rewrite string_of_list_ascii_length, binary_repr_chars_expansion by exact H.
  rewrite length_map. apply expansion_length.
Qed.

Lemma binary_repr_bitstring (n k : nat) :
  k < 2 ^ S n -> bitstring (binary_repr k (S n)).
Proof.
  intros H. unfold bitstring. rewrite binary_repr_expansion by exact H.
  apply Forall_forall. intros c Hc. apply in_map_iff in Hc.
  destruct Hc as ([|] & <- & _); [right | left]; reflexivity.
Qed.

Lemma zeros_length (n : nat) : String.length (zeros n) = n.
Proof. unfold zeros. rewrite string_of_list_ascii_length. apply repeat_length. Qed.

Lemma zeros_bitstring (n : nat) : bitstring (zeros n).
Proof.
  unfold bitstring, zeros. rewrite list_ascii_of_string_of_list_ascii.
  apply Forall_forall. intros c Hc. apply repeat_spec in Hc. left. exact Hc.
Qed.

Lemma expansion_testbit (n i j : nat) :
  expansion n i = expansion n j ->
  forall m, m < n -> Nat.testbit i m = Nat.testbit j m.
Proof.
  induction n as [|n IH]; intros E m Hm; [lia|].
  simpl in E. injection E as E1 E2.
  destruct (Nat.eq_dec m n) as [-> | Hne]; [exact E1|].
  apply IH; [exact E2 | lia].
Qed.

Lemma testbit_above (n k m : nat) : k < 2 ^ n -> n <= m -> Nat.testbit k m = false.
Proof.
  intros H Hm. apply testbit_small.
  apply Nat.lt_le_trans with (2 ^ n); [exact H|].
  apply Nat.pow_le_mono_r; lia.
Qed.

Lemma expansion_inj (n i j : nat) :
  i < 2 ^ n -> j < 2 ^ n -> expansion n i = expansion n j -> i = j.
Proof.
  intros Hi Hj E. apply Nat.bits_inj. intros m.
  destruct (Nat.lt_ge_cases m n) as [Hm | Hm].
  - apply (@expansion_testbit n i j E m Hm).
  - rewrite (@testbit_above n i m Hi Hm), (@testbit_above n j m Hj Hm).
    reflexivity.
Qed.

Lemma char_of_bit_inj (l1 l2 : list bool) :
  map char_of_bit l1 = map char_of_bit l2 -> l1 = l2.
Proof.
  revert l2. induction l1 as [|a l1 IH]; intros [|b l2] E;
    try discriminate; [reflexivity|].
  simpl in E. injection E as Ec El. f_equal; [|apply IH; exact El].
  destruct a, b; try reflexivity; discriminate.
Qed.

(** Distinct outcomes get distinct keys. *)
Lemma binary_repr_inj (n i j : nat) :
  i < 2 ^ S n -> j < 2 ^ S n ->
  binary_repr i (S n) = binary_repr j (S n) -> i = j.
Proof.
  intros Hi Hj E. apply (@expansion_inj (S n) i j Hi Hj).
  apply char_of_bit_inj.
  rewrite <- !binary_repr_expansion by assumption. rewrite E. reflexivity.
Qed.

(** ** Dictionaries built from distinct keys *)

Lemma dict_set_fresh (d : dict) (k : string) (v : Z) :
  ~ In k (keys d) -> dict_set d k v = d ++ [(k, v)].
Proof.
  induction d as [|[k' v'] d IH]; intros H; simpl; [reflexivity|].
  simpl in H. destruct (String.eqb k' k) eqn:E.
  - apply String.eqb_eq in E. tauto.
  - rewrite IH by tauto. reflexivity.
Qed.

Lemma fold_dict_set_distinct (entries : list (string * Z)) (d : dict) :
  NoDup (keys (d ++ entries)) ->
  fold_left (fun d kv => dict_set d (fst kv) (snd kv)) entries d = d ++ entries.
Proof.
  revert d. induction entries as [|[k v] l IH]; intros d H; simpl.
  - rewrite app_nil_r. reflexivity.
  - unfold keys in H. rewrite map_app in H. simpl in H.
    rewrite dict_set_fresh.
    + rewrite IH; [rewrite <- app_assoc; reflexivity|].
      unfold keys. rewrite <- app_assoc, map_app. exact H.
    + apply NoDup_remove_2 in H. intros Hin. apply H.
      apply in_or_app. left. exact Hin.
Qed.

Lemma dict_of_distinct (entries : list (string * Z)) :
  NoDup (map fst entries) -> dict_of entries = entries.
Proof. intros H. unfold dict_of. rewrite fold_dict_set_distinct; auto. Qed.

(** ** Counts of the returned dictionary *)

Lemma nonzero_spec (dist : list Z) (i : nat) :
  In i (nonzero dist) <-> i < List.length dist /\ nth i dist 0%Z <> 0%Z.
Proof.
  unfold nonzero. rewrite filter_In, in_seq, negb_true_iff, Z.eqb_neq. lia.
Qed.

Lemma nonzero_NoDup (dist : list Z) : NoDup (nonzero dist).
Proof. apply NoDup_filter, seq_NoDup. Qed.

Lemma map_nth_seq (l : list Z) :
  map (fun i => nth i l 0%Z) (seq 0 (List.length l)) = l.
Proof.
  apply (nth_ext _ _ 0%Z 0%Z); [rewrite length_map, length_seq; reflexivity|].
  intros i Hi. rewrite length_map, length_seq in Hi.
  exact (nth_map_seq (fun i => nth i l 0%Z) 0%Z Hi).
Qed.

Lemma Zsum_filter_nonzero (g : nat -> Z) (l : list nat) :
  Zsum (map g (filter (fun i => negb (Z.eqb (g i) 0)) l)) = Zsum (map g l).
Proof.
  induction l as [|i l IH]; simpl; [reflexivity|].
  destruct (Z.eqb (g i) 0) eqn:E; simpl; rewrite IH; [|reflexivity].
  apply Z.eqb_eq in E. lia.
Qed.

Lemma Zsum_nonzero (dist : list Z) :
  Zsum (map (fun i => nth i dist 0%Z) (nonzero dist)) = Zsum dist.
Proof.
  unfold nonzero.
  rewrite (Zsum_filter_nonzero (fun i => nth i dist 0%Z)), map_nth_seq.
  reflexivity.
Qed.

Lemma dim3_loop_length (probs : ndarray) (one : nat) (ex : index) (N : nat)
      (dec_vals : list nat) (acc w : list Q) :
  dim3_loop probs one ex N dec_vals acc = Ok w ->
  List.length w = List.length acc + List.length dec_vals.
Proof.
  revert acc. induction dec_vals as [|k l IH]; intros acc H; simpl in H.
  - injection H as <-. simpl. lia.
  - destruct (dim3_weight probs one ex N k); simpl in H; [|discriminate].
    apply IH in H. rewrite H, length_app. simpl. lia.
Qed.

Lemma dim3_weights_length (N : nat) (b : string) (probs w : list Q) :
  dim3_weights N b probs = Ok w -> List.length w = 2 ^ N.
Proof.
  unfold dim3_weights. intros H.
  destruct (if String.eqb b "ground-rydberg" then Ok (0, Slice 1 3)
            else if String.eqb b "digital" then Ok (2, Slice 0 2)
                 else Raise (UnboundLocalError "one_state"));
    simpl in H; [|discriminate].
  destruct (reshape probs (repeat 3 N)); simpl in H; [|discriminate].
  apply dim3_loop_length in H. rewrite H, length_seq. reflexivity.
Qed.

Lemma last_item_ok (sts : list Qobj) (q : Qobj) :
  last_item sts = Ok q -> exists earlier, sts = earlier ++ [q].
Proof.
  intros H. destruct sts as [|a sts]; [discriminate|].
  assert (Hne : a :: sts <> []) by discriminate.
  destruct (exists_last Hne) as (l & q' & E). rewrite E in *.
  rewrite last_item_app in H. injection H as ->. exists l. reflexivity.
Qed.

(** The dictionary built from a draw over [2^N] outcomes, [N >= 1]. *)
Lemma draw_counts_spec (multinomial : Z -> list Q -> result (list Z))
      (n : nat) (N_samples : Z) (weights : list Q) (d : dict) :
  multinomial_contract multinomial ->
  List.length weights = 2 ^ S n ->
  draw_counts multinomial (S n) N_samples weights = Ok d ->
  NoDup (keys d)
  /\ Forall (fun k => String.length k = S n /\ bitstring k) (keys d)
  /\ Forall (fun c => (0 < c)%Z) (values d)
  /\ Zsum (values d) = N_samples.
Proof.
  intros C L H. unfold draw_counts in H.
  destruct (multinomial N_samples weights) as [dist|] eqn:E; simpl in H;
    [|discriminate].
  injection H as <-.
  pose proof (draw_length C _ _ E) as Ld. rewrite L in Ld.
  assert (B : forall i, In i (nonzero dist) -> i < 2 ^ S n)
    by (intros i Hi; apply nonzero_spec in Hi; lia).
  assert (K : NoDup (map (fun i => binary_repr i (S n)) (nonzero dist))).
  { apply NoDup_map_NoDup_ForallPairs; [|apply nonzero_NoDup].
    intros i j Hi Hj Eij. apply (@binary_repr_inj n i j); auto. }
  rewrite dict_of_distinct by (rewrite map_map; exact K).
  unfold keys, values. rewrite !map_map. cbn [fst snd].
  split; [exact K|]. split; [|split].
  - apply Forall_forall. intros k Hk. apply in_map_iff in Hk.
    destruct Hk as (i & <- & Hi). apply B in Hi.
    split; [apply binary_repr_length | apply binary_repr_bitstring]; exact Hi.
  - apply Forall_forall. intros c Hc. apply in_map_iff in Hc.
    destruct Hc as (i & <- & Hi). apply nonzero_spec in Hi.
    destruct Hi as [Hi Hnz].
    pose proof (draw_nonneg C _ _ E) as NN.
    rewrite Forall_forall in NN.
    assert (0 <= nth i dist 0)%Z by (apply NN, nth_In; exact Hi).
    lia.
  - rewrite Zsum_nonzero. apply (draw_total C _ _ E).
Qed.

(** ** The returned dictionary *)

(** X17: for a record with [size >= 1] whose final state has [dim^size]
    amplitudes and a draw that meets the contract of [np.random.multinomial],
    every successful call returns distinct keys, each a string of [size]
    characters '0' and '1', and counts that add up to [N_samples]; every
    count is positive when the call reaches the draw or [N_samples] is
    positive. *)
Theorem sample_final_state_counts
        (multinomial : Z -> list Q -> result (list Z))
        (self : SimulationResults) (mb : option string) (b : string)
        (N_samples : Z) (d : dict)
        (Hdraw : multinomial_contract multinomial)
        (Hres : resolved self mb = Some b)
        (Hsize : 1 <= size self)
        (Hlen : forall earlier final,
            states self = earlier ++ [final] ->
            List.length (data final) = dim self ^ size self)
        (Hok : sample_final_state multinomial self mb N_samples = Ok d) :
  NoDup (keys d)
  /\ Forall (fun k => String.length k = size self /\ bitstring k) (keys d)
  /\ Zsum (values d) = N_samples
  /\ ((0 < N_samples)%Z \/ dim self = 3 \/ b = basis_name self ->
      Forall (fun c => (0 < c)%Z) (values d)).
Proof.
  unfold sample_final_state in Hok.
  destruct (resolve_basis self mb) as [b'|] eqn:Eb; simpl in Hok; [|discriminate].
  apply resolve_basis_ok in Eb. destruct Eb as [Eb V].
  rewrite Hres in Eb. injection Eb as <-.
  unfold weights_stage in Hok.
  destruct (last_item (states self)) as [final|] eqn:El; simpl in Hok;
    [|discriminate].
  destruct (last_item_ok _ El) as [earlier Hs].
  specialize (Hlen earlier final Hs).
  destruct (size self) as [|n] eqn:Hn; [lia|].
  destruct (dim self =? 2) eqn:D2.
  - apply Nat.eqb_eq in D2. rewrite D2 in Hlen.
    destruct (String.eqb b (basis_name self)) eqn:Es; simpl in Hok.
    + assert (L : List.length
                    (if String.eqb b "digital" then np_abs_sq final
                     else reverse_rows (row_length final) (np_abs_sq final))
                  = 2 ^ S n).
      { destruct (String.eqb b "digital"); rewrite ?reverse_rows_length;
          unfold np_abs_sq; rewrite length_map; exact Hlen. }
      destruct (@draw_counts_spec multinomial n N_samples _ d Hdraw L Hok)
        as (K1 & K2 & K3 & K4).
      auto.
    + injection Hok as <-. unfold keys, values. cbn [map fst snd Zsum fold_right].
      split; [repeat constructor; simpl; tauto|].
      split; [repeat constructor; [apply zeros_length | apply zeros_bitstring]|].
      split; [lia|].
      apply String.eqb_neq in Es.
      intros [H | [H | H]]; [repeat constructor; exact H | lia | contradiction].
  - destruct (dim self =? 3) eqn:D3; [|discriminate].
    destruct (dim3_weights (S n) b (np_abs_sq final)) as [w|] eqn:Ew;
      simpl in Hok; [|discriminate].
    pose proof (@dim3_weights_length (S n) b _ w Ew) as L.
    destruct (@draw_counts_spec multinomial n N_samples _ d Hdraw L Hok)
        as (K1 & K2 & K3 & K4).
    auto.
Qed.

Lemma sample_final_state_counts_witness :
  NoDup (keys [("00", 500%Z)])
  /\ Forall (fun k => String.length k = size two_atoms /\ bitstring k)
            (keys [("00", 500%Z)])
  /\ Zsum (values [("00", 500%Z)]) = 500%Z
  /\ ((0 < 500)%Z \/ dim two_atoms = 3 \/ "ground-rydberg" = basis_name two_atoms ->
      Forall (fun c => (0 < c)%Z) (values [("00", 500%Z)])).
Proof.
  apply (@sample_final_state_counts draw_first two_atoms
           (Some "ground-rydberg") "ground-rydberg" 500 [("00", 500%Z)]).
  - exact draw_first_contract.
  - reflexivity.
  - simpl; lia.
  - intros earlier final H.
    assert (E : last_item (states two_atoms) = Ok final)
      by (rewrite H; apply last_item_app).
    injection E as <-. reflexivity.
  - vm_compute; reflexivity.
Defined.

(** C4: the early return of the two-level branch keeps a count of zero.
    With [dim = 2] and a measurement basis other than the addressing basis, a
    call for zero samples returns the entry ['00': 0], a count that is not
    positive; on the same record the draw path, taken with the addressing
    basis, drops the outcomes of count zero and returns the empty mapping. *)
Lemma mismatch_zero_samples :
  multinomial_contract draw_first
  /\ sample_final_state draw_first two_atoms (Some "digital") 0
     = Ok [("00", 0%Z)]
  /\ ~ Forall (fun c => (0 < c)%Z) (values [("00", 0%Z)])
  /\ sample_final_state draw_first two_atoms (Some "ground-rydberg") 0
     = Ok [].
Proof.
  split; [exact draw_first_contract|]. split; [reflexivity|]. split.
  - intros H. inversion H as [|? ? H0 _]. lia.
  - vm_compute. reflexivity.
Qed.

(** ** The properties on the sample inputs *)

Lemma sample_final_state_basis_errors_witness :
  exists msg,
    sample_final_state draw_first two_atoms None 1000 = Raise (ValueError msg)
    /\ (msg = msg_undefined_basis \/ msg = msg_invalid_basis).
Proof.
  apply (proj1 (proj2 (sample_final_state_basis_errors two_atoms None))).
  left. split; reflexivity.
Defined.

Lemma sample_final_state_unsupported_dim_witness :
  (forall d, sample_final_state draw_first four_levels None 10 <> Ok d)
  /\ (forall b, resolved four_levels None = Some b -> valid_basis b ->
      states four_levels <> [] ->
      sample_final_state draw_first four_levels None 10
      = Raise (NotImplementedError msg_dimension)).
Proof.
  apply (@sample_final_state_unsupported_dim draw_first four_levels None 10).
  - simpl; lia.
  - simpl; lia.
Defined.

Lemma sample_final_state_mismatch_witness :
  sample_final_state draw_first two_atoms (Some "digital") 500
  = Ok [(zeros (size two_atoms), 500%Z)].
Proof.
  apply (@sample_final_state_mismatch draw_first two_atoms (Some "digital") 500
           "digital" [] (ket [0; 0; 0; 1]%Q [2; 2])).
  - reflexivity.
  - reflexivity.
  - right; reflexivity.
  - simpl; discriminate.
  - reflexivity.
Defined.

Lemma dim3_independent_of_basis_name_witness :
  weights_stage (with_basis_name rydberg_atom "digital") "digital" 10
  = weights_stage (with_basis_name rydberg_atom "ground-rydberg") "digital" 10
  /\ sample_final_state draw_first (with_basis_name rydberg_atom "digital")
                        (Some "digital") 10
     = sample_final_state draw_first
                          (with_basis_name rydberg_atom "ground-rydberg")
                          (Some "digital") 10.
Proof.
  apply (@dim3_independent_of_basis_name draw_first rydberg_atom
           "digital" "ground-rydberg" (Some "digital") "digital" 10).
  reflexivity.
Defined.

Lemma expect_type_error_witness :
  expect ket_expect one_atom PyNdarray0d = Raise (TypeError msg_iteration).
Proof.
  apply (proj2 (proj2 (expect_type_error ket_expect one_atom PyNdarray0d))).
  - reflexivity.
  - reflexivity.
Defined.

Lemma expect_shapes_witness :
  (Exists (fun obs => obs_shape obs <> expected_shape one_atom)
          (items (PyList [sigma_z])) ->
   expect ket_expect one_atom (PyList [sigma_z]) = Raise (ValueError msg_shape))
  /\ (Forall (fun obs => obs_shape obs = expected_shape one_atom)
             (items (PyList [sigma_z])) ->
      exists vals,
        expect ket_expect one_atom (PyList [sigma_z]) = Ok vals
        /\ vals = map (fun obs => map (ket_expect (wrap (ket [1; 0]%Q [2]) obs))
                                      (states one_atom))
                      (items (PyList [sigma_z]))
        /\ List.length vals = List.length (items (PyList [sigma_z]))
        /\ Forall (fun v => List.length v = List.length (states one_atom)) vals).
Proof.
  apply (@expect_shapes ket_expect one_atom (PyList [sigma_z])
           (ket [1; 0]%Q [2]) [ket [0; 1]%Q [2]]).
  - reflexivity.
  - reflexivity.
Defined.

(** On the sample inputs: the expectation values of [sigma_z] in the states
    [|0>] and [|1>], and the error for an observable of the wrong shape. *)
Example expect_sigma_z :
  expect ket_expect one_atom (PyList [sigma_z])
  = Ok [[Cplx 1 0; Cplx (-1) 0]].
Proof. vm_compute. reflexivity. Qed.

Example expect_row_vector :
  expect ket_expect one_atom (PyNdarray [sigma_z; row_vector])
  = Raise (ValueError msg_shape).
Proof. reflexivity. Qed.

(** One atom with three levels in the Rydberg state, measured in
    'ground-rydberg': every sample reads 1. *)
Lemma rydberg_atom_samples
      (multinomial : Z -> list Q -> result (list Z)) (N_samples : Z) :
  multinomial_contract multinomial -> (0 < N_samples)%Z ->
  sample_final_state multinomial rydberg_atom (Some "ground-rydberg") N_samples
  = Ok [("1", N_samples)].
Proof.
  intros C Hn. unfold sample_final_state.
  assert (E : resolve_basis rydberg_atom (Some "ground-rydberg")
              = Ok "ground-rydberg") by reflexivity.
  assert (W : weights_stage rydberg_atom "ground-rydberg" N_samples
              = Ok (inr [0; 1]%Q)) by (vm_compute; reflexivity).
  rewrite E. cbn [bind]. rewrite W. cbn [bind]. unfold draw_counts.
  rewrite (@point_mass_draw multinomial N_samples [0; 1]%Q 1 C).
  - cbn [bind List.length place seq map Nat.eqb].
    unfold nonzero. cbn [List.length seq filter nth Z.eqb negb].
    destruct N_samples; try lia. reflexivity.
  - lia.
  - repeat constructor; discriminate.
  - reflexivity.
  - simpl; lia.
  - intros [|[|[|i]]] Hi; try reflexivity. congruence.
Qed.

(** Two atoms with three levels and amplitudes 1 to 9: in 'digital' the
    outcome 00 gathers the entries (0,0), (0,1), (1,0) and (1,1) of the 3x3
    table of squares, 1 + 4 + 16 + 25. *)
Example nine_amplitudes_digital :
  weights_stage nine_amplitudes "digital" 1000
  = Ok (inr [46; 45; 113; 81]%Q).
Proof. vm_compute. reflexivity. Qed.

Example nine_amplitudes_ground_rydberg :
  weights_stage nine_amplitudes "ground-rydberg" 1000
  = Ok (inr [206; 65; 13; 1]%Q).
Proof. vm_compute. reflexivity. Qed.

(** With [size = 0] the three-level branch fails: [np.binary_repr(0, 0)] is
    ['0'], one index too many for an array without axes. *)
Example no_atom_raises :
  weights_stage no_atom "digital" 1000
  = Raise (IndexError "too many indices for array").
Proof. reflexivity. Qed.

(** * Further properties of the methods *)

(** ** Failures of [sample_final_state] after the validation *)

(** X1: with a recognised basis and an empty list of states the call raises
    [IndexError], whatever [dim] is: the final state is read before the
    dimension is looked at. *)
Theorem sample_final_state_no_state
        (multinomial : Z -> list Q -> result (list Z))
        (self : SimulationResults) (mb : option string) (b : string)
        (N_samples : Z)
        (Hstates : states self = [])
        (Hres : resolved self mb = Some b) (Hvalid : valid_basis b) :
  sample_final_state multinomial self mb N_samples
  = Raise (IndexError "list index out of range").
Proof.
  unfold sample_final_state, weights_stage.
  assert (E : resolve_basis self mb = Ok b) by (apply resolve_basis_ok; auto).
  rewrite E, Hstates. reflexivity.
Qed.

Lemma sample_final_state_no_state_witness :
  sample_final_state draw_first (mkResults [] 7 2 "digital" None)
                     (Some "digital") 10
  = Raise (IndexError "list index out of range").
Proof.
  apply (@sample_final_state_no_state draw_first
           (mkResults [] 7 2 "digital" None) (Some "digital") "digital" 10).
  - reflexivity.
  - reflexivity.
  - right; reflexivity.
Defined.

(** X2: with [dim = 3] and a recognised basis, a final state whose number of
    amplitudes is not [3^size] makes the call raise the [ValueError] of
    [reshape]; the draw is not reached. *)
Theorem sample_final_state_bad_length
        (multinomial : Z -> list Q -> result (list Z))
        (self : SimulationResults) (mb : option string) (b : string)
        (earlier : list Qobj) (final : Qobj) (N_samples : Z)
        (Hdim : dim self = 3)
        (Hres : resolved self mb = Some b) (Hvalid : valid_basis b)
        (Hstates : states self = earlier ++ [final])
        (Hlen : List.length (data final) <> 3 ^ size self) :
  sample_final_state multinomial self mb N_samples
  = Raise (ValueError "cannot reshape array").
Proof.
  unfold sample_final_state, weights_stage.
  assert (E : resolve_basis self mb = Ok b) by (apply resolve_basis_ok; auto).
  rewrite E, Hstates, last_item_app, Hdim. cbn [bind].
  change (3 =? 2) with false. change (3 =? 3) with true. cbv iota.
  unfold dim3_weights, reshape.
  rewrite prod_shape_repeat. unfold np_abs_sq. rewrite length_map.
  apply Nat.eqb_neq in Hlen. rewrite Hlen.
  destruct Hvalid as [-> | ->]; reflexivity.
Qed.

Lemma sample_final_state_bad_length_witness :
  sample_final_state draw_first
    (mkResults [ket [1; 0]%Q [2]] 3 1 "digital" None) (Some "digital") 10
  = Raise (ValueError "cannot reshape array").
Proof.
  apply (@sample_final_state_bad_length draw_first
           (mkResults [ket [1; 0]%Q [2]] 3 1 "digital" None)
           (Some "digital") "digital" [] (ket [1; 0]%Q [2]) 10).
  - reflexivity.
  - reflexivity.
  - right; reflexivity.
  - reflexivity.
  - simpl; lia.
Defined.

(** X3: with [dim = 3], [size = 0] and a recognised basis the call raises
    [IndexError] for every final state of one amplitude: the key of the only
    outcome, [np.binary_repr(0, 0)], has one character, one index more than
    the array has axes. *)
Theorem sample_final_state_no_atom
        (multinomial : Z -> list Q -> result (list Z))
        (self : SimulationResults) (mb : option string) (b : string)
        (earlier : list Qobj) (final : Qobj) (N_samples : Z)
        (Hdim : dim self = 3) (Hsize : size self = 0)
        (Hres : resolved self mb = Some b) (Hvalid : valid_basis b)
        (Hstates : states self = earlier ++ [final])
        (Hlen : List.length (data final) = 1) :
  sample_final_state multinomial self mb N_samples
  = Raise (IndexError "too many indices for array").
Proof.
  unfold sample_final_state, weights_stage.
  assert (E : resolve_basis self mb = Ok b) by (apply resolve_basis_ok; auto).
  rewrite E, Hstates, last_item_app, Hdim, Hsize. cbn [bind].
  change (3 =? 2) with false. change (3 =? 3) with true. cbv iota.
  unfold dim3_weights, reshape. unfold np_abs_sq at 1.
  rewrite length_map, Hlen.
  destruct Hvalid as [-> | ->]; reflexivity.
Qed.

Lemma sample_final_state_no_atom_witness :
  sample_final_state draw_first no_atom (Some "digital") 10
  = Raise (IndexError "too many indices for array").
Proof.
  apply (@sample_final_state_no_atom draw_first no_atom (Some "digital")
           "digital" [] (ket [1]%Q []) 10).
  - reflexivity.
  - reflexivity.
  - reflexivity.
  - right; reflexivity.
  - reflexivity.
  - reflexivity.
Defined.

(** ** The stored basis is only a default *)

(** An explicit basis argument makes the stored default irrelevant, and
    a call without argument on a record that stores the basis [b] is the call
    with the argument [b]. *)
Theorem stored_basis_is_default
        (multinomial : Z -> list Q -> result (list Z))
        (self : SimulationResults) (b : string) (N_samples : Z) :
  (forall stored1 stored2,
      sample_final_state multinomial (with_meas_basis self stored1)
                         (Some b) N_samples
      = sample_final_state multinomial (with_meas_basis self stored2)
                           (Some b) N_samples)
  /\ (meas_basis self = Some b ->
      sample_final_state multinomial self None N_samples
      = sample_final_state multinomial self (Some b) N_samples).
Proof.
  split.
  - intros stored1 stored2. reflexivity.
  - intros H. unfold sample_final_state, resolve_basis. rewrite H. reflexivity.
Qed.

Lemma stored_basis_is_default_witness :
  sample_final_state draw_first one_atom None 10
  = sample_final_state draw_first one_atom (Some "digital") 10.
Proof.
  apply (proj2 (stored_basis_is_default draw_first one_atom "digital" 10)).
  reflexivity.
Defined.

(** ** [expect] on lists put together, and without states *)

Lemma expect_loop_acc (self : SimulationResults) (l : list observable)
      (acc : list Qobj) :
  expect_loop self l acc
  = (r <- expect_loop self l [] ;; Ok (acc ++ r)).
Proof.
  revert acc. induction l as [|obs l IH]; intros acc; simpl.
  - rewrite app_nil_r. reflexivity.
  - destruct (negb _); [reflexivity|].
    destruct (first_item (states self)) as [s0|]; simpl; [|reflexivity].
    rewrite (IH (acc ++ _)), (IH [_]).
    destruct (expect_loop self l []); simpl; [|reflexivity].
    rewrite <- app_assoc. reflexivity.
Qed.

Lemma expect_loop_app (self : SimulationResults) (l1 l2 : list observable)
      (acc : list Qobj) :
  expect_loop self (l1 ++ l2) acc
  = (r <- expect_loop self l1 acc ;; expect_loop self l2 r).
Proof.
  revert acc. induction l1 as [|obs l1 IH]; intros acc; simpl; [reflexivity|].
  destruct (negb _); [reflexivity|].
  destruct (first_item (states self)); simpl; [apply IH | reflexivity].
Qed.

(** X4: the result of [expect] on two lists put end to end is the result on
    the first followed by the result on the second, and it raises the error
    of the first part that fails. *)
Theorem expect_app
        (qutip_expect_one : Qobj -> Qobj -> complex)
        (self : SimulationResults) (l1 l2 : list observable) :
  expect qutip_expect_one self (PyList (l1 ++ l2))
  = (v1 <- expect qutip_expect_one self (PyList l1) ;;
     v2 <- expect qutip_expect_one self (PyList l2) ;;
     Ok (v1 ++ v2)).
Proof.
  unfold expect. rewrite expect_loop_app.
  destruct (expect_loop self l1 []) as [r1|]; simpl; [|reflexivity].
  rewrite expect_loop_acc.
  destruct (expect_loop self l2 []) as [r2|]; simpl; [|reflexivity].
  rewrite map_app. reflexivity.
Qed.

(** X5: on a record without states, [expect] returns the empty list for an
    empty list of observables; otherwise the first observable decides:
    [ValueError] when its shape is wrong, [IndexError] (from [states[0]])
    when it is right. *)
Theorem expect_no_state
        (qutip_expect_one : Qobj -> Qobj -> complex)
        (self : SimulationResults) (obs_list : pyarg)
        (Hstates : states self = [])
        (Harg : list_or_ndarray obs_list = true) :
  match items obs_list with
  | [] => expect qutip_expect_one self obs_list = Ok []
  | obs :: _ =>
      expect qutip_expect_one self obs_list
      = if shape_eqb (obs_shape obs) (expected_shape self)
        then Raise (IndexError "list index out of range")
        else Raise (ValueError msg_shape)
  end.
Proof.
  destruct obs_list as [l|l|l| | |]; try discriminate;
    destruct l as [|obs l]; simpl; try reflexivity;
    unfold expected_shape;
    destruct (shape_eqb (obs_shape obs) _); simpl; try reflexivity;
    rewrite Hstates; reflexivity.
Qed.

Lemma expect_no_state_witness :
  expect ket_expect (mkResults [] 2 1 "digital" None) (PyList [sigma_z])
  = Raise (IndexError "list index out of range").
Proof.
  apply (@expect_no_state ket_expect (mkResults [] 2 1 "digital" None)
           (PyList [sigma_z])).
  - reflexivity.
  - reflexivity.
Defined.

(** ** The weight table is a table of probabilities *)

Lemma Forall_firstn_keep {A : Type} (P : A -> Prop) (n : nat) (l : list A) :
  Forall P l -> Forall P (firstn n l).
Proof.
  revert l. induction n as [|n IH]; intros l H; [constructor|].
  destruct H; simpl; constructor; auto.
Qed.

Lemma Forall_skipn_keep {A : Type} (P : A -> Prop) (n : nat) (l : list A) :
  Forall P l -> Forall P (skipn n l).
Proof.
  revert l. induction n as [|n IH]; intros l H; [exact H|].
  destruct H; simpl; [constructor | auto].
Qed.

Lemma chunk_Forall (P : Q -> Prop) (i s : nat) (a : list Q) :
  Forall P a -> Forall P (chunk i s a).
Proof.
  intros H. unfold chunk. apply Forall_firstn_keep, Forall_skipn_keep, H.
Qed.

Lemma concat_results_Forall (P : Q -> Prop) (l : list (result (list Q)))
      (r : list Q) :
  (forall x, In (Ok x) l -> Forall P x) ->
  concat_results l = Ok r -> Forall P r.
Proof.
  revert r. induction l as [|y l IH]; intros r H E; simpl in E.
  - injection E as <-. constructor.
  - destruct y as [x|]; simpl in E; [|discriminate].
    destruct (concat_results l) as [xs|]; simpl in E; [|discriminate].
    injection E as <-. apply Forall_app. split.
    + apply H. left. reflexivity.
    + apply IH; [|reflexivity]. intros z Hz. apply H. right. exact Hz.
Qed.

(** Indexing returns entries of the array, nothing else. *)
Lemma getitem_data_Forall (P : Q -> Prop) (ind : list index) (shp : list nat)
      (a r : list Q) :
  Forall P a -> getitem_data ind shp a = Ok r -> Forall P r.
Proof.
  revert shp a r. induction ind as [|i ind IH]; intros shp a r H E; simpl in E.
  - injection E as <-. exact H.
  - destruct shp as [|d shp]; [discriminate|].
    destruct i as [n | start stop].
    + destruct (n <? d); [|discriminate].
      eapply IH; [|exact E]. apply chunk_Forall, H.
    + eapply concat_results_Forall; [|exact E].
      intros x Hx. apply in_map_iff in Hx. destruct Hx as (n & Hn & _).
      eapply IH; [|exact Hn]. apply chunk_Forall, H.
Qed.

Lemma abs2_nonneg (z : complex) : (0 <= abs2 z)%Q.
Proof.
  unfold abs2.
  assert (S : forall x : Q, (0 <= x * x)%Q)
    by (intros [n d]; unfold Qle, Qmult; simpl; nia).
  replace 0%Q with (0 + 0)%Q by reflexivity.
  apply Qplus_le_compat; apply S.
Qed.

Lemma np_abs_sq_nonneg (q : Qobj) : Forall (fun p => (0 <= p)%Q) (np_abs_sq q).
Proof.
  unfold np_abs_sq. apply Forall_forall. intros p Hp.
  apply in_map_iff in Hp. destruct Hp as (z & <- & _). apply abs2_nonneg.
Qed.

Lemma Qsum_nonneg (l : list Q) :
  Forall (fun p => (0 <= p)%Q) l -> (0 <= Qsum l)%Q.
Proof.
  induction 1 as [|p l Hp _ IH]; simpl; [apply Qle_refl|].
  replace 0%Q with (0 + 0)%Q by reflexivity.
  apply Qplus_le_compat; assumption.
Qed.

Lemma dim3_loop_nonneg (probs : ndarray) (one : nat) (ex : index) (N : nat)
      (dec_vals : list nat) (acc w : list Q) :
  Forall (fun p => (0 <= p)%Q) (nd_data probs) ->
  Forall (fun p => (0 <= p)%Q) acc ->
  dim3_loop probs one ex N dec_vals acc = Ok w ->
  Forall (fun p => (0 <= p)%Q) w.
Proof.
  intros Hp. revert acc. induction dec_vals as [|k l IH]; intros acc Ha E;
    simpl in E.
  - injection E as <-. exact Ha.
  - unfold dim3_weight, getitem in E.
    destruct (getitem_data _ (nd_shape probs) (nd_data probs)) as [sel|] eqn:G;
      simpl in E; [|discriminate].
    eapply IH; [|exact E].
    apply Forall_app. split; [exact Ha|].
    constructor; [|constructor].
    apply Qsum_nonneg. eapply getitem_data_Forall; [exact Hp | exact G].
Qed.

Lemma dim3_weights_nonneg (N : nat) (b : string) (probs w : list Q) :
  Forall (fun p => (0 <= p)%Q) probs ->
  dim3_weights N b probs = Ok w ->
  Forall (fun p => (0 <= p)%Q) w.
Proof.
  intros NN E. unfold dim3_weights in E.
  destruct (if String.eqb b "ground-rydberg" then Ok (0, Slice 1 3)
            else if String.eqb b "digital" then Ok (2, Slice 0 2)
                 else Raise (UnboundLocalError "one_state")) as [sel|];
    simpl in E; [|discriminate].
  unfold reshape in E.
  destruct (List.length probs =? prod_shape (repeat 3 N));
    simpl in E; [|discriminate].
  eapply dim3_loop_nonneg; [| constructor | exact E]. exact NN.
Qed.

(** X6: no weight of the table handed to the draw is negative, in the
    two-level and in the three-level branch. *)
Theorem weights_nonneg
        (self : SimulationResults) (b : string) (N_samples : Z)
        (weights : list Q)
        (Hw : weights_stage self b N_samples = Ok (inr weights)) :
  Forall (fun p => (0 <= p)%Q) weights.
Proof.
  unfold weights_stage in Hw.
  destruct (last_item (states self)) as [final|]; simpl in Hw; [|discriminate].
  pose proof (np_abs_sq_nonneg final) as NN.
  destruct (dim self =? 2).
  - destruct (String.eqb b (basis_name self)); [|discriminate].
    injection Hw as <-.
    destruct (String.eqb b "digital");
      [exact NN | apply reverse_rows_Forall, NN].
  - destruct (dim self =? 3); [|discriminate].
    destruct (dim3_weights (size self) b (np_abs_sq final)) as [w|] eqn:E;
      simpl in Hw; [|discriminate].
    injection Hw as <-. eapply dim3_weights_nonneg; [exact NN | exact E].
Qed.

Lemma weights_nonneg_witness :
  Forall (fun p => (0 <= p)%Q) [46; 45; 113; 81]%Q.
Proof.
  apply (@weights_nonneg nine_amplitudes "digital" 1000).
  vm_compute. reflexivity.
Defined.

(** ** A normalised final state always yields a mapping *)

(** X7: for a recognised basis, a normalised final state and a number of
    samples that is not negative, the call returns a mapping: always when
    [dim = 2], and when [dim = 3] for a register of at least one atom whose
    final state has [3^size] amplitudes. *)
Theorem sample_final_state_succeeds
        (multinomial : Z -> list Q -> result (list Z))
        (self : SimulationResults) (mb : option string) (b : string)
        (earlier : list Qobj) (final : Qobj) (N_samples : Z)
        (Hdraw : multinomial_contract multinomial)
        (Hres : resolved self mb = Some b) (Hvalid : valid_basis b)
        (Hstates : states self = earlier ++ [final])
        (Hdim : dim self = 2
                \/ (dim self = 3 /\ 1 <= size self
                    /\ List.length (data final) = 3 ^ size self))
        (Hnorm : (Qsum (map abs2 (data final)) == 1)%Q)
        (Hn : (0 <= N_samples)%Z) :
  exists d, sample_final_state multinomial self mb N_samples = Ok d.
Proof.
  assert (E : resolve_basis self mb = Ok b) by (apply resolve_basis_ok; auto).
  assert (D : forall w, Forall (fun p => (0 <= p)%Q) w -> (Qsum w == 1)%Q ->
              exists d, draw_counts multinomial (size self) N_samples w = Ok d).
  { intros w NN S1. unfold draw_counts.
    destruct (draw_defined Hdraw Hn NN S1) as [dist ->]. simpl.
    eexists; reflexivity. }
  unfold sample_final_state. rewrite E. cbn [bind].
  destruct Hdim as [Hdim | (Hdim & Hsize & Hlen)].
  - unfold weights_stage. rewrite Hstates, last_item_app, Hdim. cbn [bind].
    change (2 =? 2) with true. cbv iota.
    destruct (String.eqb b (basis_name self)); cbn [bind];
      [|eexists; reflexivity].
    destruct (String.eqb b "digital"); apply D.
    + apply np_abs_sq_nonneg.
    + exact Hnorm.
    + apply reverse_rows_Forall, np_abs_sq_nonneg.
    + rewrite Qsum_reverse_rows. exact Hnorm.
  - destruct (size self) as [|n] eqn:Hsz; [lia|].
    rewrite (@weights_stage_dim3 self b earlier final N_samples n
               Hdim Hvalid Hstates Hsz Hlen).
    cbn [bind]. apply D.
    + eapply dim3_weights_nonneg; [apply (np_abs_sq_nonneg final)|].
      apply dim3_weights_select; [exact Hvalid|].
      unfold np_abs_sq. rewrite length_map. exact Hlen.
    + rewrite select_total.
      * exact Hnorm.
      * apply basis_levels_valid, Hvalid.
      * unfold np_abs_sq. rewrite length_map. exact Hlen.
Qed.

Lemma sample_final_state_succeeds_witness :
  exists d,
    sample_final_state draw_first rydberg_atom (Some "digital") 1000 = Ok d.
Proof.
  apply (@sample_final_state_succeeds draw_first rydberg_atom (Some "digital")
           "digital" [] rydberg_ket 1000).
  - exact draw_first_contract.
  - reflexivity.
  - right; reflexivity.
  - reflexivity.
  - right. repeat split. simpl; lia.
  - reflexivity.
  - lia.
Defined.

(** ** What the returned dictionary holds *)

(** The dictionary is the list of the outcomes drawn at least once, in
    increasing order, each with its count. *)
Lemma draw_counts_entries (multinomial : Z -> list Q -> result (list Z))
      (n : nat) (N_samples : Z) (weights : list Q) (d : dict) :
  multinomial_contract multinomial ->
  List.length weights = 2 ^ S n ->
  draw_counts multinomial (S n) N_samples weights = Ok d ->
  exists dist,
    multinomial N_samples weights = Ok dist
    /\ List.length dist = 2 ^ S n
    /\ d = map (fun i => (binary_repr i (S n), nth i dist 0%Z)) (nonzero dist).
Proof.
  intros C L H. unfold draw_counts in H.
  destruct (multinomial N_samples weights) as [dist|] eqn:E; simpl in H;
    [|discriminate].
  injection H as <-. exists dist.
  pose proof (draw_length C _ _ E) as Ld. rewrite L in Ld.
  split; [reflexivity|]. split; [exact Ld|].
  apply dict_of_distinct. rewrite map_map. cbn [fst].
  apply NoDup_map_NoDup_ForallPairs; [|apply nonzero_NoDup].
  intros i j Hi Hj Eij. apply nonzero_spec in Hi, Hj.
  apply (@binary_repr_inj n i j); [lia | lia | exact Eij].
Qed.

Lemma dict_get_entries (n : nat) (v : nat -> Z) (l : list nat) (i : nat) :
  (forall j, In j l -> j < 2 ^ S n) -> i < 2 ^ S n ->
  dict_get (map (fun j => (binary_repr j (S n), v j)) l) (binary_repr i (S n))
  = if existsb (Nat.eqb i) l then Some (v i) else None.
Proof.
  intros B Hi. induction l as [|j l IH]; [reflexivity|]. cbn [map dict_get existsb].
  destruct (String.eqb (binary_repr j (S n)) (binary_repr i (S n))) eqn:E.
  - apply String.eqb_eq in E.
    apply binary_repr_inj in E; [| apply B; left; reflexivity | exact Hi].
    subst j. rewrite Nat.eqb_refl. reflexivity.
  - assert (Hne : i <> j) by (intros ->; rewrite String.eqb_refl in E; discriminate).
    apply Nat.eqb_neq in Hne. rewrite Hne. cbn [orb].
    apply IH. intros k Hk. apply B. right. exact Hk.
Qed.

Lemma existsb_nonzero (dist : list Z) (i : nat) :
  i < List.length dist ->
  existsb (Nat.eqb i) (nonzero dist) = negb (Z.eqb (nth i dist 0%Z) 0).
Proof.
  intros Hi. destruct (Z.eqb (nth i dist 0%Z) 0) eqn:E; simpl.
  - apply Bool.not_true_is_false. intros H. apply existsb_exists in H.
    destruct H as (j & Hj & Eij). apply Nat.eqb_eq in Eij. subst j.
    apply nonzero_spec in Hj. apply Z.eqb_eq in E. tauto.
  - apply existsb_exists. exists i. split; [|apply Nat.eqb_refl].
    apply nonzero_spec. apply Z.eqb_neq in E. tauto.
Qed.

(** A successful call that does not take the early return comes from a draw
    over [2^size] weights. *)
Lemma sample_final_state_draw
      (multinomial : Z -> list Q -> result (list Z))
      (self : SimulationResults) (mb : option string) (b : string)
      (N_samples : Z) (d : dict) :
  resolved self mb = Some b ->
  1 <= size self ->
  (forall earlier final,
      states self = earlier ++ [final] ->
      List.length (data final) = dim self ^ size self) ->
  dim self = 3 \/ b = basis_name self ->
  sample_final_state multinomial self mb N_samples = Ok d ->
  exists n w,
    size self = S n
    /\ weights_stage self b N_samples = Ok (inr w)
    /\ List.length w = 2 ^ S n
    /\ draw_counts multinomial (S n) N_samples w = Ok d.
Proof.
  intros Hres Hsize Hlen Hpath Hok.
  unfold sample_final_state in Hok.
  destruct (resolve_basis self mb) as [b'|] eqn:Eb; simpl in Hok; [|discriminate].
  apply resolve_basis_ok in Eb. destruct Eb as [Eb V].
  rewrite Hres in Eb. injection Eb as <-.
  destruct (size self) as [|n] eqn:Hn; [lia|].
  destruct (weights_stage self b N_samples) as [[ret|w]|] eqn:W;
    simpl in Hok; try discriminate.
  - exfalso. unfold weights_stage in W.
    destruct (last_item (states self)); simpl in W; [|discriminate].
    destruct (dim self =? 2) eqn:D2.
    + apply Nat.eqb_eq in D2.
      destruct Hpath as [H3 | ->]; [congruence|].
      rewrite String.eqb_refl in W. discriminate.
    + destruct (dim self =? 3); [|discriminate].
      destruct (dim3_weights _ b _); discriminate.
  - exists n, w. repeat split; try assumption.
    unfold weights_stage in W.
    destruct (last_item (states self)) as [final|] eqn:El; simpl in W;
      [|discriminate].
    destruct (last_item_ok _ El) as [earlier Hs].
    specialize (Hlen earlier final Hs).
    destruct (dim self =? 2) eqn:D2.
    + apply Nat.eqb_eq in D2. rewrite D2 in Hlen.
      destruct (String.eqb b (basis_name self)); [|discriminate].
      injection W as <-.
      destruct (String.eqb b "digital"); rewrite ?reverse_rows_length;
        unfold np_abs_sq; rewrite length_map; exact Hlen.
    + destruct (dim self =? 3); [|discriminate].
      destruct (dim3_weights (size self) b (np_abs_sq final)) as [w'|] eqn:Ew;
        simpl in W; [|discriminate].
      injection W as <-. rewrite <- Hn. eapply dim3_weights_length. exact Ew.
Qed.

(** X8: after a successful call that reaches the draw, looking up the key of
    an outcome [i < 2^size] gives the number of times the draw produced [i],
    and no entry when that number is zero. *)
Theorem counts_lookup
        (multinomial : Z -> list Q -> result (list Z))
        (self : SimulationResults) (mb : option string) (b : string)
        (N_samples : Z) (d : dict)
        (Hdraw : multinomial_contract multinomial)
        (Hres : resolved self mb = Some b)
        (Hsize : 1 <= size self)
        (Hlen : forall earlier final,
            states self = earlier ++ [final] ->
            List.length (data final) = dim self ^ size self)
        (Hpath : dim self = 3 \/ b = basis_name self)
        (Hok : sample_final_state multinomial self mb N_samples = Ok d) :
  exists weights dist,
    weights_stage self b N_samples = Ok (inr weights)
    /\ multinomial N_samples weights = Ok dist
    /\ forall i, i < 2 ^ size self ->
         dict_get d (binary_repr i (size self))
         = if Z.eqb (nth i dist 0%Z) 0 then None else Some (nth i dist 0%Z).
Proof.
  destruct (@sample_final_state_draw multinomial self mb b N_samples d
              Hres Hsize Hlen Hpath Hok) as (n & w & Hn & W & L & Hd).
  destruct (@draw_counts_entries multinomial n N_samples w d Hdraw L Hd)
    as (dist & E & Ld & ->).
  exists w, dist. split; [exact W|]. split; [exact E|].
  rewrite Hn. intros i Hi.
  rewrite dict_get_entries.
  - rewrite existsb_nonzero by lia.
    destruct (Z.eqb (nth i dist 0%Z) 0); reflexivity.
  - intros j Hj. apply nonzero_spec in Hj. lia.
  - exact Hi.
Qed.

Lemma two_atoms_lengths (earlier : list Qobj) (final : Qobj) :
  states two_atoms = earlier ++ [final] ->
  List.length (data final) = dim two_atoms ^ size two_atoms.
Proof.
  intros H.
  assert (E : last_item (states two_atoms) = Ok final)
    by (rewrite H; apply last_item_app).
  injection E as <-. reflexivity.
Qed.

Lemma counts_lookup_witness :
  exists weights dist,
    weights_stage two_atoms "ground-rydberg" 500 = Ok (inr weights)
    /\ draw_first 500 weights = Ok dist
    /\ forall i, i < 2 ^ size two_atoms ->
         dict_get [("00", 500%Z)] (binary_repr i (size two_atoms))
         = if Z.eqb (nth i dist 0%Z) 0 then None else Some (nth i dist 0%Z).
Proof.
  apply (@counts_lookup draw_first two_atoms (Some "ground-rydberg")
           "ground-rydberg" 500 [("00", 500%Z)]).
  - exact draw_first_contract.
  - reflexivity.
  - simpl; lia.
  - exact two_atoms_lengths.
  - right; reflexivity.
  - vm_compute; reflexivity.
Defined.

Lemma Zsum_at_least_length (g : nat -> Z) (l : list nat) :
  (forall i, In i l -> (1 <= g i)%Z) ->
  (Z.of_nat (List.length l) <= Zsum (map g l))%Z.
Proof.
  induction l as [|i l IH]; intros H; [simpl; lia|].
  cbn [List.length map Zsum fold_right].
  assert (1 <= g i)%Z by (apply H; left; reflexivity).
  assert (Z.of_nat (List.length l) <= Zsum (map g l))%Z
    by (apply IH; intros j Hj; apply H; right; exact Hj).
  unfold Zsum in *. lia.
Qed.

(** X9: a successful call that reaches the draw returns at most
    [N_samples] entries and at most [2^size]; for zero samples the mapping is
    empty. *)
Theorem counts_size
        (multinomial : Z -> list Q -> result (list Z))
        (self : SimulationResults) (mb : option string) (b : string)
        (N_samples : Z) (d : dict)
        (Hdraw : multinomial_contract multinomial)
        (Hres : resolved self mb = Some b)
        (Hsize : 1 <= size self)
        (Hlen : forall earlier final,
            states self = earlier ++ [final] ->
            List.length (data final) = dim self ^ size self)
        (Hpath : dim self = 3 \/ b = basis_name self)
        (Hok : sample_final_state multinomial self mb N_samples = Ok d) :
  (Z.of_nat (List.length d) <= N_samples)%Z
  /\ List.length d <= 2 ^ size self
  /\ (N_samples = 0%Z -> d = []).
Proof.
  destruct (@sample_final_state_draw multinomial self mb b N_samples d
              Hres Hsize Hlen Hpath Hok) as (n & w & Hn & W & L & Hd).
  destruct (@draw_counts_entries multinomial n N_samples w d Hdraw L Hd)
    as (dist & E & Ld & ->).
  rewrite length_map.
  assert (B1 : (Z.of_nat (List.length (nonzero dist)) <= N_samples)%Z).
  { rewrite <- (draw_total Hdraw _ _ E), <- (Zsum_nonzero dist).
    apply Zsum_at_least_length. intros i Hi. apply nonzero_spec in Hi.
    pose proof (draw_nonneg Hdraw _ _ E) as NN. rewrite Forall_forall in NN.
    assert (0 <= nth i dist 0)%Z by (apply NN, nth_In; tauto).
    lia. }
  split; [exact B1|]. split.
  - rewrite Hn, <- Ld. unfold nonzero.
    etransitivity; [apply filter_length_le | rewrite length_seq; lia].
  - intros ->. destruct (nonzero dist); [reflexivity | simpl in B1; lia].
Qed.

Lemma counts_size_witness :
  (Z.of_nat (List.length [("00", 500%Z)]) <= 500)%Z
  /\ List.length [("00", 500%Z)] <= 2 ^ size two_atoms
  /\ (500%Z = 0%Z -> [("00", 500%Z)] = []).
Proof.
  apply (@counts_size draw_first two_atoms (Some "ground-rydberg")
           "ground-rydberg" 500 [("00", 500%Z)]).
  - exact draw_first_contract.
  - reflexivity.
  - simpl; lia.
  - exact two_atoms_lengths.
  - right; reflexivity.
  - vm_compute; reflexivity.
Defined.

Lemma StronglySorted_seq (start len : nat) : StronglySorted lt (seq start len).
Proof.
  revert start. induction len as [|len IH]; intros start; simpl; constructor.
  - apply IH.
  - apply Forall_forall. intros j Hj. apply in_seq in Hj. lia.
Qed.

Lemma StronglySorted_filter (f : nat -> bool) (l : list nat) :
  StronglySorted lt l -> StronglySorted lt (filter f l).
Proof.
  induction 1 as [|i l Hs IH Hi]; simpl; [constructor|].
  destruct (f i); [|exact IH].
  constructor; [exact IH|].
  apply Forall_forall. intros j Hj. apply filter_In in Hj.
  rewrite Forall_forall in Hi. apply Hi. tauto.
Qed.

(** X10: the entries of a mapping that comes from a draw are listed in
    increasing order of the outcome they stand for. *)
Theorem keys_increasing
        (multinomial : Z -> list Q -> result (list Z))
        (self : SimulationResults) (mb : option string) (b : string)
        (N_samples : Z) (d : dict)
        (Hdraw : multinomial_contract multinomial)
        (Hres : resolved self mb = Some b)
        (Hsize : 1 <= size self)
        (Hlen : forall earlier final,
            states self = earlier ++ [final] ->
            List.length (data final) = dim self ^ size self)
        (Hpath : dim self = 3 \/ b = basis_name self)
        (Hok : sample_final_state multinomial self mb N_samples = Ok d) :
  exists outcomes,
    keys d = map (fun i => binary_repr i (size self)) outcomes
    /\ StronglySorted lt outcomes
    /\ Forall (fun i => i < 2 ^ size self) outcomes.
Proof.
  destruct (@sample_final_state_draw multinomial self mb b N_samples d
              Hres Hsize Hlen Hpath Hok) as (n & w & Hn & W & L & Hd).
  destruct (@draw_counts_entries multinomial n N_samples w d Hdraw L Hd)
    as (dist & E & Ld & ->).
  exists (nonzero dist). rewrite Hn. split; [|split].
  - unfold keys. rewrite map_map. reflexivity.
  - apply StronglySorted_filter, StronglySorted_seq.
  - apply Forall_forall. intros i Hi. apply nonzero_spec in Hi. lia.
Qed.

Lemma keys_increasing_witness :
  exists outcomes,
    keys [("00", 500%Z)]
    = map (fun i => binary_repr i (size two_atoms)) outcomes
    /\ StronglySorted lt outcomes
    /\ Forall (fun i => i < 2 ^ size two_atoms) outcomes.
Proof.
  apply (@keys_increasing draw_first two_atoms (Some "ground-rydberg")
           "ground-rydberg" 500 [("00", 500%Z)]).
  - exact draw_first_contract.
  - reflexivity.
  - simpl; lia.
  - exact two_atoms_lengths.
  - right; reflexivity.
  - vm_compute; reflexivity.
Defined.

(** ** A final state that is a basis state *)

Lemma Qsum_single (l : list Q) (i0 : nat) :
  (forall i, i <> i0 -> (nth i l 0 == 0)%Q) -> (Qsum l == nth i0 l 0)%Q.
Proof.
  revert i0. induction l as [|a l IH]; intros i0 H.
  - destruct i0; reflexivity.
  - destruct i0 as [|j]; simpl.
    + rewrite (IH (List.length l)).
      * rewrite nth_overflow by lia. ring.
      * intros i _. apply (H (S i)). discriminate.
    + assert (Ha : (a == 0)%Q) by (apply (H 0); discriminate).
      rewrite Ha, (IH j); [ring|].
      intros i Hi. apply (H (S i)). congruence.
Qed.

Lemma filter_eqb_seq (i0 start len : nat) :
  filter (fun i => i =? i0) (seq start len)
  = if (start <=? i0) && (i0 <? start + len) then [i0] else [].
Proof.
  revert start. induction len as [|len IH]; intros start; simpl.
  - destruct (start <=? i0) eqn:E1, (i0 <? start + 0) eqn:E2; try reflexivity.
    apply Nat.leb_le in E1. apply Nat.ltb_lt in E2. lia.
  - rewrite IH.
    destruct (start =? i0) eqn:E0, (S start <=? i0) eqn:E1,
             (i0 <? S start + len) eqn:E2, (start <=? i0) eqn:E3,
             (i0 <? start + S len) eqn:E4; simpl;
      rewrite ?Nat.eqb_eq, ?Nat.eqb_neq, ?Nat.leb_le, ?Nat.leb_gt,
              ?Nat.ltb_lt, ?Nat.ltb_ge in *; try lia; try reflexivity.
    subst. reflexivity.
Qed.

Lemma nonzero_place (n : Z) (i0 len : nat) :
  n <> 0%Z -> i0 < len -> nonzero (place n i0 len) = [i0].
Proof.
  intros Hn Hi. unfold nonzero. rewrite place_length.
  rewrite (filter_ext_in _ (fun i => i =? i0)).
  - rewrite filter_eqb_seq. simpl.
    apply Nat.ltb_lt in Hi. rewrite Hi. reflexivity.
  - intros i Hin. apply in_seq in Hin. rewrite place_nth.
    assert (E : (i <? len) = true) by (apply Nat.ltb_lt; lia).
    rewrite E. simpl.
    destruct (i =? i0); [|reflexivity].
    apply negb_true_iff, Z.eqb_neq, Hn.
Qed.

(** A draw from a table that puts all the weight on the outcome [i0]. *)
Lemma draw_counts_point (multinomial : Z -> list Q -> result (list Z))
      (N : nat) (n : Z) (w : list Q) (i0 : nat) :
  multinomial_contract multinomial ->
  (0 < n)%Z -> Forall (fun p => (0 <= p)%Q) w ->
  i0 < List.length w ->
  (nth i0 w 0 == 1)%Q ->
  (forall i, i <> i0 -> (nth i w 0 == 0)%Q) ->
  draw_counts multinomial N n w = Ok [(binary_repr i0 N, n)].
Proof.
  intros C Hn NN Hi H1 H0. unfold draw_counts.
  rewrite (@point_mass_draw multinomial n w i0 C); try assumption; try lia.
  - cbn [bind]. rewrite nonzero_place by first [assumption | lia].
    cbn [map]. rewrite place_nth.
    apply Nat.ltb_lt in Hi. rewrite Hi, Nat.eqb_refl. reflexivity.
  - rewrite (Qsum_single w H0). exact H1.
Qed.

Lemma expansion_complement (n j : nat) :
  j < 2 ^ n -> expansion n (2 ^ n - 1 - j) = map negb (expansion n j).
Proof.
  revert j. induction n as [|n IH]; intros j Hj; [reflexivity|].
  rewrite Nat.pow_succ_r' in *.
  destruct (Nat.lt_ge_cases j (2 ^ n)) as [Hlt | Hge].
  - replace (2 * 2 ^ n - 1 - j) with (2 ^ n + (2 ^ n - 1 - j)) by lia.
    rewrite expansion_high by lia. rewrite expansion_low by exact Hlt.
    rewrite IH by exact Hlt. reflexivity.
  - replace (2 * 2 ^ n - 1 - j) with (2 ^ n - 1 - (j - 2 ^ n)) by lia.
    replace j with (2 ^ n + (j - 2 ^ n)) at 2 by lia.
    rewrite expansion_low by lia. rewrite expansion_high by lia.
    rewrite IH by lia. reflexivity.
Qed.

Lemma binary_repr_key (n k : nat) :
  k < 2 ^ S n -> binary_repr k (S n) = key_of_bits (expansion (S n) k).
Proof.
  intros H. unfold binary_repr, key_of_bits.
  rewrite binary_repr_chars_expansion by exact H. reflexivity.
Qed.

(** X11: with [dim = 2] and the measurement basis equal to the addressing
    basis, a final state that is a column vector of [2^size] amplitudes and
    the basis state number [j] gives all the
    samples to one key: the binary digits of [j] in 'digital', and those
    digits with 0 and 1 exchanged in 'ground-rydberg'. *)
Theorem dim2_basis_state
        (multinomial : Z -> list Q -> result (list Z))
        (self : SimulationResults) (mb : option string) (b : string)
        (earlier : list Qobj) (final : Qobj) (N_samples : Z) (j : nat)
        (Hdraw : multinomial_contract multinomial)
        (Hdim : dim self = 2)
        (Hres : resolved self mb = Some b) (Hvalid : valid_basis b)
        (Hsame : b = basis_name self)
        (Hstates : states self = earlier ++ [final])
        (Hsize : 1 <= size self)
        (Hshape : shape final = [2 ^ size self; 1])
        (Hlen : List.length (data final) = 2 ^ size self)
        (Hj : j < 2 ^ size self)
        (Hone : (abs2 (nth j (data final) Czero) == 1)%Q)
        (Hzero : forall i, i <> j -> (abs2 (nth i (data final) Czero) == 0)%Q)
        (Hn : (0 < N_samples)%Z) :
  sample_final_state multinomial self mb N_samples
  = Ok [(key_of_bits (if String.eqb b "digital"
                      then expansion (size self) j
                      else map negb (expansion (size self) j)),
         N_samples)].
Proof.
  assert (E : resolve_basis self mb = Ok b) by (apply resolve_basis_ok; auto).
  assert (P : forall i, (nth i (np_abs_sq final) 0
                         == abs2 (nth i (data final) Czero))%Q).
  { intros i. unfold np_abs_sq.
    destruct (Nat.lt_ge_cases i (List.length (data final))) as [Hi | Hi].
    - rewrite (nth_indep _ 0%Q (abs2 Czero)) by (rewrite length_map; exact Hi).
      rewrite map_nth. reflexivity.
    - rewrite !nth_overflow by (rewrite ?length_map; exact Hi). reflexivity. }
  unfold sample_final_state, weights_stage.
  rewrite E, Hstates, last_item_app, Hdim. cbn [bind].
  change (2 =? 2) with true. cbv iota.
  rewrite <- Hsame, String.eqb_refl. cbn [bind].
  rewrite (row_length_column final Hshape), reverse_rows_column.
  destruct (size self) as [|n] eqn:Hsz; [lia|].
  destruct (String.eqb b "digital").
  - rewrite <- binary_repr_key by exact Hj.
    apply draw_counts_point; try assumption.
    + apply np_abs_sq_nonneg.
    + unfold np_abs_sq. rewrite length_map. lia.
    + rewrite P. exact Hone.
    + intros i Hi. rewrite P. apply Hzero, Hi.
  - rewrite <- expansion_complement by exact Hj.
    rewrite <- binary_repr_key by lia.
    assert (L : List.length (np_abs_sq final) = 2 ^ S n)
      by (unfold np_abs_sq; rewrite length_map; exact Hlen).
    assert (R : forall i, i < 2 ^ S n ->
                nth i (rev (np_abs_sq final)) 0%Q
                = nth (2 ^ S n - 1 - i) (np_abs_sq final) 0%Q).
    { intros i Hi. rewrite rev_nth by lia. rewrite L. f_equal. lia. }
    apply draw_counts_point; try assumption.
    + apply Forall_rev, np_abs_sq_nonneg.
    + rewrite length_rev. lia.
    + rewrite R by lia. rewrite P.
      replace (2 ^ S n - 1 - (2 ^ S n - 1 - j)) with j by lia. exact Hone.
    + intros i Hi.
      destruct (Nat.lt_ge_cases i (2 ^ S n)) as [Hlt | Hge].
      * rewrite R by exact Hlt. rewrite P. apply Hzero. lia.
      * rewrite nth_overflow by (rewrite length_rev; lia). reflexivity.
Qed.

Lemma dim2_basis_state_witness :
  sample_final_state draw_first two_atoms (Some "ground-rydberg") 500
  = Ok [(key_of_bits (if String.eqb "ground-rydberg" "digital"
                      then expansion (size two_atoms) 3
                      else map negb (expansion (size two_atoms) 3)),
         500%Z)].
Proof.
  apply (@dim2_basis_state draw_first two_atoms (Some "ground-rydberg")
           "ground-rydberg" [] (ket [0; 0; 0; 1]%Q [2; 2]) 500 3).
  - exact draw_first_contract.
  - reflexivity.
  - reflexivity.
  - left; reflexivity.
  - reflexivity.
  - reflexivity.
  - simpl; lia.
  - reflexivity.
  - reflexivity.
  - simpl; lia.
  - reflexivity.
  - intros [|[|[|[|[|i]]]]] Hi; try reflexivity. congruence.
  - lia.
Defined.

(** ** A basis state of three-level atoms *)

Lemma bits_eqb_eq (l1 l2 : list bool) : bits_eqb l1 l2 = true <-> l1 = l2.
Proof.
  revert l2. induction l1 as [|a l1 IH]; intros [|b l2]; simpl;
    try (split; [discriminate | congruence]); try tauto.
  rewrite andb_true_iff, IH. split.
  - intros [E ->]. apply Bool.eqb_prop in E. subst. reflexivity.
  - intros E. injection E as -> ->. split; [apply Bool.eqb_reflx | reflexivity].
Qed.

Lemma level_bits_length (one n j : nat) : List.length (level_bits one n j) = n.
Proof. revert j. induction n as [|n IH]; intros j; simpl; [|rewrite IH]; reflexivity. Qed.

Lemma bits_value_bound (bits : list bool) : bits_value bits < 2 ^ List.length bits.
Proof.
  induction bits as [|b bits IH]; simpl; [lia|].
  destruct b; lia.
Qed.

Lemma expansion_bits_value (bits : list bool) :
  expansion (List.length bits) (bits_value bits) = bits.
Proof.
  induction bits as [|b bits IH]; [reflexivity|].
  cbn [List.length bits_value].
  pose proof (bits_value_bound bits) as B.
  destruct b; cbv iota.
  - rewrite expansion_high by exact B. f_equal. exact IH.
  - rewrite Nat.add_0_l, expansion_low by exact B. f_equal. exact IH.
Qed.

Lemma select_Forall (P : Q -> Prop) (one lo : nat) (bits : list bool)
      (a : list Q) :
  Forall P a -> Forall P (select one lo bits a).
Proof.
  revert a. induction bits as [|b bits IH]; intros a H; [exact H|].
  cbn [select]. destruct b.
  - apply IH, chunk_Forall, H.
  - apply Forall_app. split; apply IH, chunk_Forall, H.
Qed.

Lemma Qsum_zero (l : list Q) : Forall (fun q => (q == 0)%Q) l -> (Qsum l == 0)%Q.
Proof.
  induction 1 as [|q l Hq _ IH]; simpl; [reflexivity|].
  rewrite Hq, IH. reflexivity.
Qed.

(** The blocks of an array that is 1 at the position [j] and 0 elsewhere:
    the block that holds [j] is of the same kind, the others are 0. *)
Lemma chunk_point (s j i : nat) (a : list Q) :
  List.length a = 3 * s -> j < 3 * s ->
  (nth j a 0 == 1)%Q ->
  (forall x, x <> j -> (nth x a 0 == 0)%Q) ->
  i < 3 ->
  (i = j / s ->
   (nth (j mod s) (chunk i s a) 0 == 1)%Q
   /\ forall x, x <> j mod s -> (nth x (chunk i s a) 0 == 0)%Q)
  /\ (i <> j / s -> Forall (fun q => (q == 0)%Q) (chunk i s a)).
Proof.
  intros L Hj H1 H0 Hi.
  assert (Hs : s <> 0) by lia.
  pose proof (Nat.div_mod_eq j s) as Dj.
  pose proof (Nat.mod_upper_bound j s Hs) as Rj.
  assert (Lc : List.length (chunk i s a) = s) by (apply chunk_length; nia).
  split.
  - intros ->. split.
    + rewrite chunk_nth by exact Rj.
      replace (j / s * s + j mod s) with j by lia. exact H1.
    + intros x Hx. destruct (Nat.lt_ge_cases x s) as [Hlt | Hge].
      * rewrite chunk_nth by exact Hlt. apply H0. nia.
      * rewrite nth_overflow by lia. reflexivity.
  - intros Hne. apply Forall_nth. intros x d Hx. rewrite Lc in Hx.
    rewrite (nth_indep _ d 0%Q) by lia.
    rewrite chunk_nth by exact Hx. apply H0.
    intros E. apply Hne. subst j.
    rewrite Nat.div_add_l by exact Hs. rewrite Nat.div_small by exact Hx. lia.
Qed.

(** For an array that is 1 at the position [j] and 0 elsewhere, the digits
    select the weight 1 when they say, axis by axis, whether [j] has the level
    [one] there, and the weight 0 otherwise. *)
Lemma select_point (one lo : nat) (bits : list bool) (a : list Q) (j : nat) :
  basis_levels one lo ->
  List.length a = 3 ^ List.length bits ->
  j < 3 ^ List.length bits ->
  (nth j a 0 == 1)%Q ->
  (forall x, x <> j -> (nth x a 0 == 0)%Q) ->
  (Qsum (select one lo bits a)
   == if bits_eqb bits (level_bits one (List.length bits) j) then 1 else 0)%Q.
Proof.
  intros Hlv. revert a j.
  induction bits as [|b bits IH]; intros a j L Hj H1 H0.
  - simpl in *. assert (j = 0) by lia. subst j.
    rewrite (Qsum_single a H0). exact H1.
  - cbn [List.length] in *. rewrite Nat.pow_succ_r' in L, Hj.
    set (n := List.length bits) in *. set (s := 3 ^ n) in *.
    assert (Hi : j / s < 3) by (apply Nat.Div0.div_lt_upper_bound; lia).
    assert (Hr : j mod s < s) by (apply Nat.mod_upper_bound; lia).
    assert (HP : (Qsum (select one lo bits (chunk (j / s) s a))
                  == if bits_eqb bits (level_bits one n (j mod s))
                     then 1 else 0)%Q).
    { destruct (proj1 (@chunk_point s j (j / s) a L Hj H1 H0 Hi) eq_refl)
        as [C1 C0].
      apply IH; [apply chunk_length; nia | exact Hr | exact C1 | exact C0]. }
    assert (HZ : forall i, i < 3 -> i <> j / s ->
                   (Qsum (select one lo bits (chunk i s a)) == 0)%Q).
    { intros i Hi3 Hne. apply Qsum_zero, select_Forall.
      apply (proj2 (@chunk_point s j i a L Hj H1 H0 Hi3) Hne). }
    cbn [select level_bits bits_eqb]. fold n. fold s.
    remember (j / s) as i eqn:Ei.
    destruct Hlv as [[-> ->] | [-> ->]]; destruct b;
      destruct i as [|[|[|i]]]; try lia;
      cbn [Nat.eqb Bool.eqb andb];
      rewrite ?Qsum_app, ?HP, ?(HZ 0), ?(HZ 1), ?(HZ 2) by lia;
      try reflexivity;
      destruct (bits_eqb bits (level_bits _ n (j mod s))); reflexivity.
Qed.

(** X12: with [dim = 3], a final state that is the basis state number [j]
    gives all the samples to one key, whose character for an atom is '1'
    exactly when that atom is in the level the basis reads as 1 (the Rydberg
    level for 'ground-rydberg', the hyperfine level for 'digital'). *)
Theorem dim3_basis_state
        (multinomial : Z -> list Q -> result (list Z))
        (self : SimulationResults) (mb : option string) (b : string)
        (earlier : list Qobj) (final : Qobj) (N_samples : Z) (j : nat)
        (Hdraw : multinomial_contract multinomial)
        (Hdim : dim self = 3)
        (Hres : resolved self mb = Some b) (Hvalid : valid_basis b)
        (Hstates : states self = earlier ++ [final])
        (Hsize : 1 <= size self)
        (Hlen : List.length (data final) = 3 ^ size self)
        (Hj : j < 3 ^ size self)
        (Hone : (abs2 (nth j (data final) Czero) == 1)%Q)
        (Hzero : forall i, i <> j -> (abs2 (nth i (data final) Czero) == 0)%Q)
        (Hn : (0 < N_samples)%Z) :
  sample_final_state multinomial self mb N_samples
  = Ok [(key_of_bits (level_bits (logical_one b) (size self) j), N_samples)].
Proof.
  assert (E : resolve_basis self mb = Ok b) by (apply resolve_basis_ok; auto).
  assert (P : forall i, (nth i (np_abs_sq final) 0
                         == abs2 (nth i (data final) Czero))%Q).
  { intros i. unfold np_abs_sq.
    destruct (Nat.lt_ge_cases i (List.length (data final))) as [Hi | Hi].
    - rewrite (nth_indep _ 0%Q (abs2 Czero)) by (rewrite length_map; exact Hi).
      rewrite map_nth. reflexivity.
    - rewrite !nth_overflow by (rewrite ?length_map; exact Hi). reflexivity. }
  destruct (size self) as [|n] eqn:Hsz; [lia|].
  unfold sample_final_state. rewrite E. cbn [bind].
  rewrite (@weights_stage_dim3 self b earlier final N_samples n
             Hdim Hvalid Hstates Hsz Hlen).
  cbn [bind]. rewrite Hsz.
  set (one := logical_one b). set (lo := logical_zero_start b).
  set (target := level_bits one (S n) j).
  assert (Lt : List.length target = S n) by apply level_bits_length.
  assert (Hlv : basis_levels one lo) by (apply basis_levels_valid, Hvalid).
  assert (La : List.length (np_abs_sq final) = 3 ^ S n)
    by (unfold np_abs_sq; rewrite length_map; exact Hlen).
  assert (K0 : bits_value target < 2 ^ S n)
    by (rewrite <- Lt; apply bits_value_bound).
  assert (X0 : expansion (S n) (bits_value target) = target)
    by (rewrite <- Lt at 1; apply expansion_bits_value).
  assert (F : forall k,
             (Qsum (select one lo (expansion (S n) k) (np_abs_sq final))
              == if bits_eqb (expansion (S n) k) target then 1 else 0)%Q).
  { intros k.
    rewrite (@select_point one lo (expansion (S n) k) (np_abs_sq final) j Hlv).
    - rewrite expansion_length. reflexivity.
    - rewrite expansion_length. exact La.
    - rewrite expansion_length. exact Hj.
    - rewrite P. exact Hone.
    - intros x Hx. rewrite P. apply Hzero, Hx. }
  rewrite <- X0 at 1. rewrite <- binary_repr_key by exact K0.
  apply draw_counts_point; try assumption.
  - apply Forall_forall. intros q Hq. apply in_map_iff in Hq.
    destruct Hq as (k & <- & _).
    apply Qsum_nonneg, select_Forall, np_abs_sq_nonneg.
  - rewrite length_map, length_seq. exact K0.
  - rewrite (nth_map_seq _ 0%Q K0). rewrite F, X0.
    rewrite (proj2 (bits_eqb_eq target target) eq_refl). reflexivity.
  - intros k Hk.
    destruct (Nat.lt_ge_cases k (2 ^ S n)) as [Hlt | Hge].
    + rewrite (nth_map_seq _ 0%Q Hlt). rewrite F.
      destruct (bits_eqb (expansion (S n) k) target) eqn:Eb; [|reflexivity].
      exfalso. apply Hk. apply bits_eqb_eq in Eb. rewrite <- X0 in Eb.
      apply (@expansion_inj (S n) k (bits_value target) Hlt K0 Eb).
    + rewrite nth_overflow by (rewrite length_map, length_seq; exact Hge).
      reflexivity.
Qed.

Lemma dim3_basis_state_witness :
  sample_final_state draw_first rydberg_atom (Some "ground-rydberg") 1000
  = Ok [(key_of_bits (level_bits (logical_one "ground-rydberg")
                                 (size rydberg_atom) 0), 1000%Z)].
Proof.
  apply (@dim3_basis_state draw_first rydberg_atom (Some "ground-rydberg")
           "ground-rydberg" [] rydberg_ket 1000 0).
  - exact draw_first_contract.
  - reflexivity.
  - reflexivity.
  - left; reflexivity.
  - reflexivity.
  - simpl; lia.
  - reflexivity.
  - simpl; lia.
  - reflexivity.
  - intros [|[|[|[|i]]]] Hi; try reflexivity. congruence.
  - lia.
Defined.

(** ** What [expect] reads of an observable *)

Lemma expect_loop_same_entries (self : SimulationResults)
      (l1 l2 : list observable) (acc : list Qobj) :
  Forall2 (fun o1 o2 => obs_shape o1 = obs_shape o2
                        /\ obs_data o1 = obs_data o2) l1 l2 ->
  expect_loop self l1 acc = expect_loop self l2 acc.
Proof.
  intros H. revert acc.
  induction H as [|o1 o2 l1 l2 [Hs Hd] _ IH]; intros acc; [reflexivity|].
  simpl. rewrite Hs, Hd.
  destruct (negb _); [reflexivity|].
  destruct (first_item (states self)); simpl; [apply IH | reflexivity].
Qed.

(** X13: [expect] reads only the shape and the entries of an observable: two
    lists that agree on those give the same result, so the block structure of
    an operator that is already a [Qobj] plays no part (it is replaced by
    that of the first state). *)
Theorem expect_ignores_dims
        (qutip_expect_one : Qobj -> Qobj -> complex)
        (self : SimulationResults) (l1 l2 : list observable)
        (Hsame : Forall2 (fun o1 o2 => obs_shape o1 = obs_shape o2
                                       /\ obs_data o1 = obs_data o2) l1 l2) :
  expect qutip_expect_one self (PyList l1)
  = expect qutip_expect_one self (PyList l2)
  /\ expect qutip_expect_one self (PyNdarray l1)
     = expect qutip_expect_one self (PyList l2).
Proof.
  unfold expect. rewrite (expect_loop_same_entries self [] Hsame). auto.
Qed.

Lemma expect_ignores_dims_witness :
  expect ket_expect one_atom (PyList [sigma_z])
  = expect ket_expect one_atom
           (PyList [ObsQobj (mkQobj ([7], [7]) (obs_shape sigma_z)
                                    (obs_data sigma_z))])
  /\ expect ket_expect one_atom (PyNdarray [sigma_z])
     = expect ket_expect one_atom
              (PyList [ObsQobj (mkQobj ([7], [7]) (obs_shape sigma_z)
                                       (obs_data sigma_z))]).
Proof.
  apply (@expect_ignores_dims ket_expect one_atom [sigma_z]
           [ObsQobj (mkQobj ([7], [7]) (obs_shape sigma_z) (obs_data sigma_z))]).
  repeat constructor.
Defined.

(** ** The exceptions [sample_final_state] can raise *)

Lemma last_item_raise (sts : list Qobj) (e : exn) :
  last_item sts = Raise e ->
  sts = [] /\ e = IndexError "list index out of range".
Proof.
  destruct sts as [|a sts]; simpl.
  - intros H. injection H as <-. auto.
  - intros H. assert (Hne : a :: sts <> []) by discriminate.
    destruct (last_item_nonempty Hne) as [q Hq].
    simpl in Hq. rewrite Hq in H. discriminate.
Qed.

Lemma draw_counts_raise (multinomial : Z -> list Q -> result (list Z))
      (N : nat) (n : Z) (w : list Q) (e : exn) :
  draw_counts multinomial N n w = Raise e -> multinomial n w = Raise e.
Proof.
  unfold draw_counts. destruct (multinomial n w); simpl; congruence.
Qed.

(** X15: a call of [sample_final_state] raises nothing but: the two
    [ValueError]s of the validation of the basis; [IndexError] for an empty
    list of states; [NotImplementedError] for a dimension other than 2 and 3;
    with [dim = 3], the [ValueError] of [reshape] for a final state that has
    not [3^size] amplitudes and [IndexError] for [size = 0]; and whatever
    [np.random.multinomial] raises on the weight table. *)
Theorem sample_final_state_errors
        (multinomial : Z -> list Q -> result (list Z))
        (self : SimulationResults) (mb : option string) (N_samples : Z)
        (e : exn)
        (Hraise : sample_final_state multinomial self mb N_samples = Raise e) :
  (e = ValueError msg_undefined_basis /\ mb = None /\ meas_basis self = None)
  \/ (e = ValueError msg_invalid_basis
      /\ exists b, resolved self mb = Some b /\ ~ valid_basis b)
  \/ (e = IndexError "list index out of range" /\ states self = [])
  \/ (e = NotImplementedError msg_dimension /\ dim self <> 2 /\ dim self <> 3)
  \/ (e = ValueError "cannot reshape array" /\ dim self = 3
      /\ exists earlier final,
           states self = earlier ++ [final]
           /\ List.length (data final) <> 3 ^ size self)
  \/ (e = IndexError "too many indices for array" /\ dim self = 3
      /\ size self = 0)
  \/ (exists b weights,
         weights_stage self b N_samples = Ok (inr weights)
         /\ multinomial N_samples weights = Raise e).
Proof.
  unfold sample_final_state in Hraise.
  destruct (resolve_basis self mb) as [b|e0] eqn:Eb; simpl in Hraise.
  2:{ injection Hraise as ->. apply resolve_basis_raise in Eb.
      destruct Eb as [(H1 & H2 & ->) | (b & R & NV & ->)];
        [left; auto | right; left; split; [reflexivity | exists b; auto]]. }
  apply resolve_basis_ok in Eb. destruct Eb as [R V].
  do 2 right.
  destruct (weights_stage self b N_samples) as [[ret|w]|e1] eqn:W;
    simpl in Hraise; [discriminate| |].
  { do 4 right. exists b, w. split; [exact W|].
    eapply draw_counts_raise. exact Hraise. }
  injection Hraise as ->. unfold weights_stage in W.
  destruct (last_item (states self)) as [final|e2] eqn:El; simpl in W.
  2:{ injection W as ->. apply last_item_raise in El.
      destruct El as [Hs ->]. left. auto. }
  right. destruct (last_item_ok _ El) as [earlier Hs].
  destruct (dim self =? 2) eqn:D2.
  { destruct (String.eqb b (basis_name self)); discriminate. }
  destruct (dim self =? 3) eqn:D3.
  2:{ left. injection W as <-. apply Nat.eqb_neq in D2, D3. auto. }
  right. apply Nat.eqb_eq in D3.
  destruct (Nat.eq_dec (List.length (data final)) (3 ^ size self)) as [L | L].
  - right. left. destruct (size self) as [|n] eqn:Hn.
    + destruct (dim3_weights 0 b (np_abs_sq final)) as [w|e3] eqn:E3;
        simpl in W; [discriminate|].
      injection W as ->. unfold dim3_weights, reshape in E3.
      unfold np_abs_sq in E3 at 1. rewrite length_map, L in E3.
      destruct V as [-> | ->]; simpl in E3; injection E3 as <-; auto.
    + rewrite dim3_weights_select in W; [discriminate | exact V |].
      unfold np_abs_sq. rewrite length_map. exact L.
  - left. destruct (dim3_weights (size self) b (np_abs_sq final)) as [w|e3] eqn:E3;
      simpl in W; [discriminate|].
    injection W as ->. unfold dim3_weights, reshape in E3.
    rewrite prod_shape_repeat in E3. unfold np_abs_sq in E3 at 1.
    rewrite length_map in E3. apply Nat.eqb_neq in L. rewrite L in E3.
    destruct V as [-> | ->]; simpl in E3; injection E3 as <-;
      (split; [reflexivity|]); (split; [exact D3|]);
      exists earlier, final; apply Nat.eqb_neq in L; auto.
Qed.

Lemma sample_final_state_errors_witness :
  (NotImplementedError msg_dimension = ValueError msg_undefined_basis
   /\ @None string = None /\ meas_basis four_levels = None)
  \/ (NotImplementedError msg_dimension = ValueError msg_invalid_basis
      /\ exists b, resolved four_levels None = Some b /\ ~ valid_basis b)
  \/ (NotImplementedError msg_dimension = IndexError "list index out of range"
      /\ states four_levels = [])
  \/ (NotImplementedError msg_dimension = NotImplementedError msg_dimension
      /\ dim four_levels <> 2 /\ dim four_levels <> 3)
  \/ (NotImplementedError msg_dimension = ValueError "cannot reshape array"
      /\ dim four_levels = 3
      /\ exists earlier final,
           states four_levels = earlier ++ [final]
           /\ List.length (data final) <> 3 ^ size four_levels)
  \/ (NotImplementedError msg_dimension
      = IndexError "too many indices for array"
      /\ dim four_levels = 3 /\ size four_levels = 0)
  \/ (exists b weights,
         weights_stage four_levels b 10 = Ok (inr weights)
         /\ draw_first 10 weights = Raise (NotImplementedError msg_dimension)).
Proof.
  apply (@sample_final_state_errors draw_first four_levels None 10).
  reflexivity.
Defined.

(** ** Three-level atoms that are never in the level read as 1 *)

Lemma select_no_one (one lo : nat) (bits : list bool) (a : list Q) :
  basis_levels one lo ->
  List.length a = 3 ^ List.length bits ->
  (forall x, x < 3 ^ List.length bits ->
             existsb id (level_bits one (List.length bits) x) = true ->
             (nth x a 0 == 0)%Q) ->
  existsb id bits = true ->
  (Qsum (select one lo bits a) == 0)%Q.
Proof.
  intros Hlv. revert a.
  induction bits as [|b bits IH]; intros a L H0 Hb; [discriminate|].
  cbn [List.length] in *. rewrite Nat.pow_succ_r' in *.
  set (n := List.length bits) in *. set (s := 3 ^ n) in *.
  assert (Hs : s <> 0) by (apply Nat.pow_nonzero; discriminate).
  destruct (basis_levels_bounds Hlv) as [B1 B2].
  cbn [select]. fold n. fold s. destruct b.
  - apply Qsum_zero, select_Forall, Forall_nth.
    intros y d Hy. rewrite chunk_length in Hy by nia.
    rewrite (nth_indep _ d 0%Q) by (rewrite chunk_length; nia).
    rewrite chunk_nth by exact Hy. apply H0; [nia|].
    cbn [level_bits existsb]. fold n. fold s.
    rewrite Nat.div_add_l by exact Hs. rewrite Nat.div_small by exact Hy.
    rewrite Nat.add_0_r, Nat.eqb_refl. reflexivity.
  - cbn [existsb id orb] in Hb.
    assert (C : forall i, i < 3 -> i <> one ->
                  (Qsum (select one lo bits (chunk i s a)) == 0)%Q).
    { intros i Hi Hne. apply IH; [apply chunk_length; nia | | exact Hb].
      intros y Hy Hex. rewrite chunk_nth by exact Hy. apply H0; [nia|].
      cbn [level_bits existsb]. fold n. fold s.
      replace ((i * s + y) mod s) with y
        by (rewrite Nat.add_comm, Nat.Div0.mod_add, Nat.mod_small; auto).
      rewrite Hex. apply orb_true_r. }
    rewrite Qsum_app.
    destruct Hlv as [[-> ->] | [-> ->]]; rewrite !C by lia; reflexivity.
Qed.

Lemma expansion_some_one (n k : nat) :
  k < 2 ^ n -> k <> 0 -> existsb id (expansion n k) = true.
Proof.
  intros Hk Hne. destruct (existsb id (expansion n k)) eqn:E; [reflexivity|].
  exfalso. apply Hne.
  apply (@expansion_inj n k 0 Hk); [apply Nat.neq_0_lt_0, Nat.pow_nonzero; lia|].
  rewrite expansion_zero.
  assert (G : forall l, existsb id l = false -> l = repeat false (List.length l)).
  { induction l as [|[|] l IHl]; simpl; intros H; try discriminate;
      [reflexivity | f_equal; apply IHl, H]. }
  rewrite <- (expansion_length n k) at 2. apply G, E.
Qed.

(** X16: with [dim = 3], when the normalised final state has no amplitude on
    any entry in which some atom is in the level read as 1, every sample
    reads 0 for every atom: the call returns ['0'*size: N_samples], as the
    two-level branch does for a basis other than the addressing basis. *)
Theorem dim3_never_one
        (multinomial : Z -> list Q -> result (list Z))
        (self : SimulationResults) (mb : option string) (b : string)
        (earlier : list Qobj) (final : Qobj) (N_samples : Z)
        (Hdraw : multinomial_contract multinomial)
        (Hdim : dim self = 3)
        (Hres : resolved self mb = Some b) (Hvalid : valid_basis b)
        (Hstates : states self = earlier ++ [final])
        (Hsize : 1 <= size self)
        (Hlen : List.length (data final) = 3 ^ size self)
        (Hnorm : (Qsum (map abs2 (data final)) == 1)%Q)
        (Hzero : forall x, x < 3 ^ size self ->
            existsb id (level_bits (logical_one b) (size self) x) = true ->
            (abs2 (nth x (data final) Czero) == 0)%Q)
        (Hn : (0 < N_samples)%Z) :
  sample_final_state multinomial self mb N_samples
  = Ok [(zeros (size self), N_samples)].
Proof.
  assert (E : resolve_basis self mb = Ok b) by (apply resolve_basis_ok; auto).
  destruct (size self) as [|n] eqn:Hsz; [lia|].
  unfold sample_final_state. rewrite E. cbn [bind].
  rewrite (@weights_stage_dim3 self b earlier final N_samples n
             Hdim Hvalid Hstates Hsz Hlen).
  cbn [bind]. rewrite Hsz.
  set (one := logical_one b) in *. set (lo := logical_zero_start b).
  assert (Hlv : basis_levels one lo) by (apply basis_levels_valid, Hvalid).
  assert (La : List.length (np_abs_sq final) = 3 ^ S n)
    by (unfold np_abs_sq; rewrite length_map; exact Hlen).
  set (w := map (fun k => Qsum (select one lo (expansion (S n) k)
                                       (np_abs_sq final)))
                (seq 0 (2 ^ S n))).
  assert (Z0 : forall k, k <> 0 -> (nth k w 0 == 0)%Q).
  { intros k Hk. destruct (Nat.lt_ge_cases k (2 ^ S n)) as [Hlt | Hge].
    - unfold w. rewrite (nth_map_seq _ 0%Q Hlt).
      apply select_no_one; try assumption.
      + rewrite expansion_length. exact La.
      + rewrite expansion_length. intros x Hx Hex. unfold np_abs_sq.
        rewrite (nth_indep _ 0%Q (abs2 Czero)) by (rewrite length_map; lia).
        rewrite map_nth. apply Hzero; assumption.
      + apply expansion_some_one; assumption.
    - rewrite nth_overflow; [reflexivity|].
      unfold w. rewrite length_map, length_seq. exact Hge. }
  change (zeros (S n)) with (binary_repr 0 (S n)).
  apply draw_counts_point; try assumption.
  - apply Forall_forall. intros q Hq. apply in_map_iff in Hq.
    destruct Hq as (k & <- & _).
    apply Qsum_nonneg, select_Forall, np_abs_sq_nonneg.
  - unfold w. rewrite length_map, length_seq.
    apply Nat.neq_0_lt_0, Nat.pow_nonzero. lia.
  - rewrite <- (Qsum_single w Z0). unfold w.
    rewrite select_total; [exact Hnorm | exact Hlv | exact La].
Qed.

Lemma dim3_never_one_witness :
  sample_final_state draw_first ground_atom (Some "digital") 1000
  = Ok [(zeros (size ground_atom), 1000%Z)].
Proof.
  apply (@dim3_never_one draw_first ground_atom (Some "digital") "digital"
           [] ground_ket 1000).
  - exact draw_first_contract.
  - reflexivity.
  - reflexivity.
  - right; reflexivity.
  - reflexivity.
  - simpl; lia.
  - reflexivity.
  - reflexivity.
  - intros [|[|[|x]]] Hx Hex; try reflexivity.
    + discriminate Hex.
    + simpl in Hx. lia.
  - lia.
Defined.

(** A final state stored as a row: [probs[::-1]] reverses the only row as a
    whole, the order of the weights is that of the amplitudes, and the samples
    go to the key 11, where the column vector of the same entries gives 00. *)
Example row_state_keeps_order :
  weights_stage two_atoms_row "ground-rydberg" 500 = Ok (inr [0; 0; 0; 1]%Q)
  /\ sample_final_state draw_first two_atoms_row (Some "ground-rydberg") 500
     = Ok [("11", 500%Z)]
  /\ sample_final_state draw_first two_atoms (Some "ground-rydberg") 500
     = Ok [("00", 500%Z)].
Proof. repeat split; vm_compute; reflexivity. Qed.
